(** * Brain tumour segmentation: the training module

    A shallow embedding of
    [brain_tumor_segmentation/modules/train/training.py]
    (class [BrainSegmentation3DModel]) and the properties of its Dice
    metric, its step functions, its data loaders and its optimizer
    configuration.

    Numbers.  A tensor entry is an IEEE-style value: a finite number, one
    of the two infinities, or not-a-number.  Finite arithmetic is carried
    out exactly over the rationals (rounding, overflow and signed zeros
    are not represented); the special values follow the IEEE rules, which
    is what the metric's not-a-number handling depends on. *)

From stdpp Require Import gmap strings.
From Stdlib Require Import QArith Lqa Lia List Bool.
Import ListNotations.

(** ** Floating-point values with exact finite arithmetic *)

Inductive fnum : Type :=
  | Fin (q : Q)
  | PInf
  | NInf
  | NaN.

(** The infinity of a given sign ([true] is negative). *)
Definition inf_of (neg : bool) : fnum := if neg then NInf else PInf.

Definition Qneg (q : Q) : bool :=
  match (q ?= 0)%Q with Lt => true | _ => false end.

Definition Qzero (q : Q) : bool := Qeq_bool q 0.

Definition fadd (a b : fnum) : fnum :=
  match a, b with
  | NaN, _ | _, NaN => NaN
  | PInf, NInf | NInf, PInf => NaN
  | PInf, _ | _, PInf => PInf
  | NInf, _ | _, NInf => NInf
  | Fin x, Fin y => Fin (x + y)
  end.

Definition fmul (a b : fnum) : fnum :=
  match a, b with
  | NaN, _ | _, NaN => NaN
  | Fin x, Fin y => Fin (x * y)
  | Fin x, PInf | PInf, Fin x => if Qzero x then NaN else inf_of (Qneg x)
  | Fin x, NInf | NInf, Fin x => if Qzero x then NaN else inf_of (negb (Qneg x))
  | PInf, PInf | NInf, NInf => PInf
  | PInf, NInf | NInf, PInf => NInf
  end.

Definition fdiv (a b : fnum) : fnum :=
  match a, b with
  | NaN, _ | _, NaN => NaN
  | Fin x, Fin y =>
      if Qzero y then (if Qzero x then NaN else inf_of (Qneg x))
      else Fin (x / y)
  | Fin _, PInf | Fin _, NInf => Fin 0
  | PInf, Fin y => inf_of (Qneg y)
  | NInf, Fin y => inf_of (negb (Qneg y))
  | _, _ => NaN
  end.

(** [a > b] on floats: false as soon as one side is not-a-number. *)
Definition fgt (a b : fnum) : bool :=
  match a, b with
  | NaN, _ | _, NaN => false
  | PInf, PInf => false
  | PInf, _ => true
  | _, NInf => match a with NInf => false | _ => true end
  | NInf, _ => false
  | Fin _, PInf => false
  | Fin x, Fin y => match (x ?= y)%Q with Gt => true | _ => false end
  end.

Definition fsum (l : list fnum) : fnum := fold_right fadd (Fin 0) l.

(** Equality of float values up to the representation of a rational. *)
Definition feq (a b : fnum) : Prop :=
  match a, b with
  | Fin x, Fin y => (x == y)%Q
  | PInf, PInf | NInf, NInf | NaN, NaN => True
  | _, _ => False
  end.

(** Largest finite single-precision value, [(2 - 2^-23) * 2^127]. *)
Definition FLT_MAX : Q := inject_Z (2 ^ 128 - 2 ^ 104).

(** ** Exceptions *)

Inductive exn : Type :=
  | KeyError
  | IndexError
  | AssertionError
  | RuntimeError
  | ValueError.

Inductive res (A : Type) : Type :=
  | Ok (a : A)
  | Raise (e : exn).
Arguments Ok {A} a.
Arguments Raise {A} e.

Definition rbind {A B} (m : res A) (k : A -> res B) : res B :=
  match m with
  | Ok a => k a
  | Raise e => Raise e
  end.

#[export] Instance res_bind : MBind res := fun A B k m => rbind m k.
#[export] Instance res_ret : MRet res := @Ok.

(** Equality of results up to [feq]. *)
Definition req (a b : res fnum) : Prop :=
  match a, b with
  | Ok x, Ok y => feq x y
  | Raise e, Raise e' => e = e'
  | _, _ => False
  end.

(** ** Tensors

    The tensors of this module are five-dimensional
    [(batch, channel, depth, height, width)]; the per-class scores are
    two-dimensional [(batch, channel)]; the image given to [forward] is
    four-dimensional.  A tensor is its size and its entries read by
    index. *)

Record Size : Type := mkSize {
  dim0 : nat; dim1 : nat; dim2 : nat; dim3 : nat; dim4 : nat }.

Record Tensor (A : Type) : Type := mkTensor {
  size : Size;
  item : nat -> nat -> nat -> nat -> nat -> A }.
Arguments mkTensor {A} _ _.
Arguments size {A} _.
Arguments item {A} _ _ _ _ _ _.

Record Tensor2 (A : Type) : Type := mkTensor2 {
  rows : nat;
  cols : nat;
  item2 : nat -> nat -> A }.
Arguments mkTensor2 {A} _ _ _.
Arguments rows {A} _.
Arguments cols {A} _.
Arguments item2 {A} _ _ _.

Record Tensor4 (A : Type) : Type := mkTensor4 {
  size4 : nat * nat * nat * nat;
  item4 : nat -> nat -> nat -> nat -> A }.
Arguments mkTensor4 {A} _ _.
Arguments size4 {A} _.
Arguments item4 {A} _ _ _ _ _.

Definition Size_eqb (s t : Size) : bool :=
  (dim0 s =? dim0 t)%nat && (dim1 s =? dim1 t)%nat && (dim2 s =? dim2 t)%nat
  && (dim3 s =? dim3 t)%nat && (dim4 s =? dim4 t)%nat.

Definition set_dim1 (s : Size) (c : nat) : Size :=
  mkSize (dim0 s) c (dim2 s) (dim3 s) (dim4 s).

(** The spatial positions [(d, h, w)] of a size, in row-major order. *)
Definition voxels (s : Size) : list (nat * nat * nat) :=
  d ← seq 0 (dim2 s); h ← seq 0 (dim3 s); w ← seq 0 (dim4 s); [(d, h, w)].

Definition tmap {A B} (f : A -> B) (t : Tensor A) : Tensor B :=
  mkTensor (size t) (fun b c d h w => f (item t b c d h w)).

(** The entries of channel [c] of sample [b], over all spatial positions. *)
Definition channel {A} (t : Tensor A) (b c : nat) : list A :=
  map (fun '(d, h, w) => item t b c d h w) (voxels (size t)).

(** ** The library operations used by the metric

    [torch.sigmoid], [Tensor.long], [monai.networks.one_hot],
    [monai.metrics.utils.ignore_background],
    [monai.metrics.meandice.compute_meandice], [torch.nan_to_num] and
    [torch.mean], each as the library computes it on five-dimensional
    input.  The logistic function itself is not rational-valued: it is the
    section variable [sigmoid], and nothing below depends on more than is
    stated of it. *)

Section Metric.

Variable sigmoid : fnum -> fnum.

Definition torch_sigmoid (t : Tensor fnum) : Tensor fnum := tmap sigmoid t.

(** Conversion to a 64-bit integer truncates towards zero; a value that is
    not finite, or whose truncation does not fit in 64 bits, converts to the
    most negative integer. *)
Definition long (x : fnum) : Z :=
  match x with
  | Fin q =>
      let z := Z.quot (Qnum q) (Z.pos (Qden q)) in
      if ((- 2 ^ 63 <=? z) && (z <? 2 ^ 63))%Z then z else (- 2 ^ 63)%Z
  | _ => (- 2 ^ 63)%Z
  end.

Definition tensor_long (t : Tensor fnum) : Tensor Z := tmap long t.

Definition label_in_range (num_classes : nat) (l : Z) : bool :=
  (0 <=? l)%Z && (l <? Z.of_nat num_classes)%Z.

(** [one_hot labels num_classes] (along dimension 1): the labels must have
    one channel; [scatter_] writes a one at channel [labels[b,0,d,h,w]] and
    refuses an index outside [0, num_classes). *)
Definition one_hot (labels : Tensor Z) (num_classes : nat) : res (Tensor fnum) :=
  let sh := size labels in
  if negb (dim1 sh =? 1)%nat then Raise AssertionError
  else if negb (forallb (fun b => forallb (label_in_range num_classes) (channel labels b 0))
                  (seq 0 (dim0 sh)))
  then Raise RuntimeError
  else Ok (mkTensor (set_dim1 sh num_classes)
             (fun b c d h w =>
                if (item labels b 0 d h w =? Z.of_nat c)%Z then Fin 1 else Fin 0)).

(** [t[:, 1:]] *)
Definition drop_channel0 {A} (t : Tensor A) : Tensor A :=
  mkTensor (set_dim1 (size t) (dim1 (size t) - 1))
    (fun b c d h w => item t b (S c) d h w).

(** [monai.metrics.utils.ignore_background]:
    [y = y[:, 1:] if y.shape[1] > 1 else y], and the same for [y_pred]; the
    first channel is removed only from a tensor that has more than one
    channel. *)
Definition ignore_background (y_pred y : Tensor fnum) : Tensor fnum * Tensor fnum :=
  let y := if (1 <? dim1 (size y))%nat then drop_channel0 y else y in
  let y_pred := if (1 <? dim1 (size y_pred))%nat then drop_channel0 y_pred else y_pred in
  (y_pred, y).

Definition tmul (a b : Tensor fnum) : Tensor fnum :=
  mkTensor (size a) (fun n c d h w => fmul (item a n c d h w) (item b n c d h w)).

(** Sum over the spatial dimensions 2, 3 and 4. *)
Definition sum_spatial (t : Tensor fnum) : Tensor2 fnum :=
  mkTensor2 (dim0 (size t)) (dim1 (size t)) (fun b c => fsum (channel t b c)).

(** [monai.metrics.meandice.compute_meandice]: the background is dropped on
    request, the shapes must then agree ([ValueError] otherwise), and with
    the sums over the spatial dimensions [intersection = sum(y * y_pred)],
    [y_o = sum(y)], [y_pred_o = sum(y_pred)] the result is
    [where(y_o > 0, (2.0 * intersection) / (y_o + y_pred_o), nan)], of shape
    (batch, channels). *)
Definition compute_meandice (y_pred y : Tensor fnum) (include_background : bool)
  : res (Tensor2 fnum) :=
  let '(y_pred, y) :=
    if negb include_background then ignore_background y_pred y else (y_pred, y) in
  if negb (Size_eqb (size y) (size y_pred)) then Raise ValueError
  else
    let intersection := sum_spatial (tmul y y_pred) in
    let y_o := sum_spatial y in
    let y_pred_o := sum_spatial y_pred in
    Ok (mkTensor2 (rows y_o) (cols y_o)
          (fun b c =>
             let denominator := fadd (item2 y_o b c) (item2 y_pred_o b c) in
             if fgt (item2 y_o b c) (Fin 0)
             then fdiv (fmul (Fin 2) (item2 intersection b c)) denominator
             else NaN)).

(** [torch.nan_to_num] with its defaults: not-a-number becomes zero and an
    infinity the extreme finite value of its sign. *)
Definition nan_to_num1 (x : fnum) : fnum :=
  match x with
  | NaN => Fin 0
  | PInf => Fin FLT_MAX
  | NInf => Fin (- FLT_MAX)
  | Fin q => Fin q
  end.

Definition nan_to_num (t : Tensor2 fnum) : Tensor2 fnum :=
  mkTensor2 (rows t) (cols t) (fun b c => nan_to_num1 (item2 t b c)).

(** The positions [(b, c)] of a two-dimensional tensor, in row-major order. *)
Definition cells (r k : nat) : list (nat * nat) :=
  b ← seq 0 r; c ← seq 0 k; [(b, c)].

Definition entries (t : Tensor2 fnum) : list fnum :=
  map (fun '(b, c) => item2 t b c) (cells (rows t) (cols t)).

Definition fmean (l : list fnum) : fnum :=
  fdiv (fsum l) (Fin (inject_Z (Z.of_nat (length l)))).

(** [torch.mean] over all entries; the mean of no entry is [0/0]. *)
Definition mean (t : Tensor2 fnum) : fnum := fmean (entries t).

(** ** [_calculate_dice]

    [.cpu()], [.detach()], [.numpy()] and [float(...)] move or rewrap the
    value and leave it unchanged. *)
Definition _calculate_dice (preds target : Tensor fnum) : res fnum :=
  let num_classes := dim1 (size preds) in
  let preds := torch_sigmoid preds in
  target ← one_hot (tensor_long target) num_classes;
  dice_value ← compute_meandice preds target false;
  let dice_value := nan_to_num dice_value in
  let dice_value := mean dice_value in
  mret dice_value.

End Metric.


(** ** The world a method acts on

    A method may log a metric, allocate an object, or raise.  [M A] is a
    computation that threads the [World] and ends in a value or in an
    exception; the world reached when an exception is raised is kept. *)

Record log_call : Type := mkLog {
  name : string;
  value : fnum;
  prog_bar : bool;
  logger : bool;
  on_epoch : bool }.

Record World : Type := mkWorld {
  logged : list log_call;
  next_object : nat }.

Definition M (A : Type) : Type := World -> res A * World.

#[export] Instance M_ret : MRet M := fun A a w => (Ok a, w).

#[export] Instance M_bind : MBind M := fun A B k m w =>
  match m w with
  | (Ok a, w') => k a w'
  | (Raise e, w') => (Raise e, w')
  end.

Definition lift {A} (r : res A) : M A := fun w => (r, w).

(** [self.log(name=..., value=..., prog_bar=..., logger=..., on_epoch=...)] *)
Definition log (name : string) (value : fnum) (prog_bar logger on_epoch : bool) : M unit :=
  fun w => (Ok tt, mkWorld (logged w ++ [mkLog name value prog_bar logger on_epoch])
                     (next_object w)).

Definition new_object : M nat :=
  fun w => (Ok (next_object w), mkWorld (logged w) (S (next_object w))).

(** [d[k]] on a dictionary *)
Definition getitem {V} (d : gmap string V) (k : string) : res V :=
  match d !! k with
  | Some v => Ok v
  | None => Raise KeyError
  end.

(** The values of the dictionary a step returns. *)
Inductive pyvalue : Type :=
  | Scalar (x : fnum)
  | TensorV (t : Tensor fnum).

(** ** Collaborators of the module *)

(** Modelled from the spec: [get_load_transforms]
    ([brain_tumor_segmentation/modules/data/utils.py] is not among the
    sources), "a transform pipeline mapping a labeled example to a
    fixed-size tensor pair"; the pipeline is represented by the arguments
    it is built from. *)
Record LoadTransforms : Type := mkLoadTransforms {
  lt_img_key : string;
  lt_lbl_key : string;
  orig_labels : list Z;
  target_labels : list Z;
  lt_spatial_size : nat * nat * nat }.

Definition get_load_transforms (img_key lbl_key : string)
    (orig_labels target_labels : list Z) (spatial_size : nat * nat * nat)
  : LoadTransforms :=
  mkLoadTransforms img_key lbl_key orig_labels target_labels spatial_size.

(** Modelled from the spec: the label stage of the load pipeline, "label
    values are drawn from {1,2,4} remapped to {1,2,3} at load time": a value
    listed in [orig_labels] becomes the value at the same position of
    [target_labels]; any other value is kept. *)
Fixpoint map_label (orig target : list Z) (v : Z) : Z :=
  match orig, target with
  | o :: orig', t :: target' => if (v =? o)%Z then t else map_label orig' target' v
  | _, _ => v
  end.

(** Modelled from the spec: the mask the pipeline loads from a label
    volume, given by its voxel values (resampling to the target spatial size
    is not represented). *)
Definition load_mask (tr : LoadTransforms) (volume : list Z) : list Z :=
  map (map_label (orig_labels tr) (target_labels tr)) volume.

Record DiceLoss : Type := mkDiceLoss {
  to_onehot_y : bool;
  dl_sigmoid : bool;
  jaccard : bool;
  include_background : bool }.

Record DenseVNet : Type := mkDenseVNet {
  in_channels : nat;
  out_channels : nat }.

(** Conversion of a tensor's entries to floats ([Tensor.float]). *)
Class ToFloat (A : Type) : Type := to_float : A -> fnum.

#[export] Instance fnum_to_float : ToFloat fnum := fun x => x.
#[export] Instance Z_to_float : ToFloat Z := fun z => Fin (inject_Z z).

Definition tensor_float {A} `{ToFloat A} (t : Tensor A) : Tensor fnum :=
  tmap to_float t.

(** [t.unsqueeze(0)] on a four-dimensional tensor *)
Definition unsqueeze0 {A} (t : Tensor4 A) : Tensor A :=
  let '(c, d, h, w) := size4 t in
  mkTensor (mkSize 1 c d h w) (fun _ c d h w => item4 t c d h w).

Section BrainSegmentation.

Variable sigmoid : fnum -> fnum.

(** Items of a path list. *)
Variable path_item : Type.

Variable get_train_val_paths :
  string -> string -> string -> Q -> option nat -> bool -> string -> string ->
  list path_item * list path_item.

(** The network as a function of its input, at its current weights, and
    the loss as a function of prediction and label. *)
Variable DenseVNet_call : DenseVNet -> Tensor fnum -> Tensor fnum.
Variable DiceLoss_call : DiceLoss -> Tensor fnum -> Tensor fnum -> res fnum.

(** Modelled from the spec: [BrainSegDataset]
    ([brain_tumor_segmentation/modules/data/datasets/train_dataset.py] is
    not among the sources), a dataset over a list of path pairs and a load
    pipeline; it is represented by the arguments it is built from and by the
    identity of the object. *)
Record BrainSegDataset : Type := mkBrainSegDataset {
  dataset_id : nat;
  image_mask_paths : list path_item;
  load_transforms : LoadTransforms }.

(** Modelled from the spec: the loader made by [create_data_loader]
    ([brain_tumor_segmentation/modules/data/utils.py] is not among the
    sources), "a data-loader factory yielding batched tensor dictionaries";
    it is represented by the arguments of the factory. *)
Record DataLoader : Type := mkDataLoader {
  dataset : BrainSegDataset;
  dl_batch_size : nat;
  shuffle : bool;
  num_workers : nat }.

(** [BrainSegDataset(image_mask_paths=..., load_transforms=...)] builds a
    new object. *)
Definition new_BrainSegDataset (image_mask_paths : list path_item)
    (load_transforms : LoadTransforms) : M BrainSegDataset :=
  id ← new_object;
  mret (mkBrainSegDataset id image_mask_paths load_transforms).

(** Modelled from the spec: [create_data_loader], see [DataLoader]. *)
Definition create_data_loader (dataset : BrainSegDataset) (batch_size : nat)
    (shuffle : bool) (num_workers : nat) : M DataLoader :=
  mret (mkDataLoader dataset batch_size shuffle num_workers).

(** The optimizer and the scheduler, by their constructor arguments;
    [params] stands for the parameters of the module, those of its
    network. *)
Record Adam : Type := mkAdam {
  params : DenseVNet;
  lr : Q }.

Record ReduceLROnPlateau : Type := mkReduceLROnPlateau {
  optimizer : Adam;
  factor : Q;
  patience : nat;
  mode : string;
  threshold : Q;
  verbose : bool }.

Record lr_scheduler_config : Type := mk_lr_scheduler_config {
  scheduler : ReduceLROnPlateau;
  monitor : string }.

Record configuration : Type := mk_configuration {
  cfg_optimizer : Adam;
  cfg_lr_scheduler : lr_scheduler_config }.

(** ** [BrainSegmentation3DModel]

    The attributes set by the constructor.  [save_hyperparameters] records
    the constructor's arguments for the framework and plays no part in the
    methods below. *)

Record BrainSegmentation3DModel : Type := mkModel {
  img_key : string;
  lbl_key : string;
  train_paths : list path_item;
  val_paths : list path_item;
  load_transform : LoadTransforms;
  batch_size : nat;
  num_processes : nat;
  learning_rate : Q;
  loss : DiceLoss;
  model : DenseVNet }.

Definition __init__
    (dataset_folder : string)
    (train_split_percent : Q)
    (dataset_item_limit : option nat)
    (shuffle_dataset : bool)
    (image_pattern mask_pattern : string)
    (spatial_size : nat * nat * nat)
    (batch_size num_processes : nat)
    (learning_rate : Q)
    (in_channels out_channels : nat) : BrainSegmentation3DModel :=
  let img_key := "image" in
  let lbl_key := "mask" in
  let '(train_paths, val_paths) :=
    get_train_val_paths dataset_folder img_key lbl_key train_split_percent
      dataset_item_limit shuffle_dataset image_pattern mask_pattern in
  let load_transform :=
    get_load_transforms img_key lbl_key [1; 2; 4]%Z [1; 2; 3]%Z spatial_size in
  mkModel img_key lbl_key train_paths val_paths load_transform
    batch_size num_processes learning_rate
    (mkDiceLoss true true true true)
    (mkDenseVNet in_channels out_channels).

(** The constructor's default arguments. *)
Definition default_model (dataset_folder : string) : BrainSegmentation3DModel :=
  __init__ dataset_folder (7 # 10) (Some 1%nat) true
    "**/*_flair.nii.gz" "**/*_seg.nii.gz" (196, 196, 128)%nat 2 1 (1 # 1000) 1 1.

Definition forward {A} `{ToFloat A} (self : BrainSegmentation3DModel)
    (image : Tensor4 A) : Tensor fnum :=
  let image := unsqueeze0 image in
  let mask := DenseVNet_call (model self) (tensor_float image) in
  let mask := torch_sigmoid sigmoid mask in
  mask.

Definition _log_metrics (self : BrainSegmentation3DModel)
    (preds target : Tensor fnum) (prefix : string) : M unit :=
  dice_value ← lift (_calculate_dice sigmoid preds target);
  log (prefix +:+ "_dice") dice_value true true true.

Definition training_step (self : BrainSegmentation3DModel)
    (batch : gmap string (Tensor fnum)) (batch_id : nat)
  : M (gmap string pyvalue) :=
  image ← lift (getitem batch (img_key self));
  label ← lift (getitem batch (lbl_key self));
  let result := DenseVNet_call (model self) image in
  loss_value ← lift (DiceLoss_call (loss self) result label);
  _ ← log "train_loss" loss_value true true true;
  _ ← _log_metrics self result label "train";
  mret ({[ "loss" := Scalar loss_value; "pred" := TensorV result;
           "label" := TensorV label ]} : gmap string pyvalue).

Definition validation_step (self : BrainSegmentation3DModel)
    (batch : gmap string (Tensor fnum)) (batch_id : nat)
  : M (gmap string pyvalue) :=
  image ← lift (getitem batch (img_key self));
  label ← lift (getitem batch (lbl_key self));
  let result := DenseVNet_call (model self) image in
  loss_value ← lift (DiceLoss_call (loss self) result label);
  _ ← log "val_loss" loss_value true true true;
  _ ← _log_metrics self result label "val";
  mret ({[ "loss" := Scalar loss_value; "pred" := TensorV result;
           "label" := TensorV label ]} : gmap string pyvalue).

Definition train_dataloader (self : BrainSegmentation3DModel) : M DataLoader :=
  train_brain_dataset ← new_BrainSegDataset (train_paths self) (load_transform self);
  train_brain_dataloader ←
    create_data_loader train_brain_dataset (batch_size self) true (num_processes self);
  mret train_brain_dataloader.

Definition val_dataloader (self : BrainSegmentation3DModel) : M DataLoader :=
  val_brain_dataset ← new_BrainSegDataset (val_paths self) (load_transform self);
  val_brain_dataloader ←
    create_data_loader val_brain_dataset (batch_size self) false (num_processes self);
  mret val_brain_dataloader.

Definition configure_optimizers (self : BrainSegmentation3DModel) : configuration :=
  let optimizer := mkAdam (model self) (learning_rate self) in
  let scheduler := mkReduceLROnPlateau optimizer (1 # 2) 5 "min" (1 # 1000) true in
  mk_configuration optimizer (mk_lr_scheduler_config scheduler "val_loss").

End BrainSegmentation.

Arguments img_key {path_item} _.
Arguments lbl_key {path_item} _.
Arguments train_paths {path_item} _.
Arguments val_paths {path_item} _.
Arguments load_transform {path_item} _.
Arguments batch_size {path_item} _.
Arguments num_processes {path_item} _.
Arguments learning_rate {path_item} _.
Arguments loss {path_item} _.
Arguments model {path_item} _.
Arguments dataset_id {path_item} _.
Arguments image_mask_paths {path_item} _.
Arguments load_transforms {path_item} _.
Arguments dataset {path_item} _.
Arguments dl_batch_size {path_item} _.
Arguments shuffle {path_item} _.
Arguments num_workers {path_item} _.

(** ** Auxiliary definitions used in the statements *)

Section Statements.

Variable sigmoid : fnum -> fnum.

(** The score [compute_meandice] gives to class [c] of sample [b]. *)
Definition dice_entry (y_pred y : Tensor fnum) (b c : nat) : fnum :=
  let intersection := fsum (channel (tmul y y_pred) b c) in
  let y_o := fsum (channel y b c) in
  let y_pred_o := fsum (channel y_pred b c) in
  if fgt y_o (Fin 0)
  then fdiv (fmul (Fin 2) intersection) (fadd y_o y_pred_o)
  else NaN.

(** The table of scores that [_calculate_dice] averages: the output of
    [compute_meandice] after [nan_to_num]. *)
Definition dice_scores (preds target : Tensor fnum) : res (Tensor2 fnum) :=
  target ← one_hot (tensor_long target) (dim1 (size preds));
  dice_value ← compute_meandice (torch_sigmoid sigmoid preds) target false;
  mret (nan_to_num dice_value).

(** The classes that get a score: all but channel 0 when there are at
    least two channels, and the only channel otherwise; and the column of
    the table of scores that holds the score of class [c]. *)
Definition scored (num_classes c : nat) : Prop :=
  (c < num_classes)%nat /\ ((2 <= num_classes)%nat -> (1 <= c)%nat).

Definition scored_classes (num_classes : nat) : nat :=
  if (1 <? num_classes)%nat then (num_classes - 1)%nat else num_classes.

Definition score_column (num_classes c : nat) : nat :=
  if (1 <? num_classes)%nat then (c - 1)%nat else c.

(** The score of one class of one sample, from the voxel values [p] of
    that class's channel in the prediction and [y] of that class's channel
    in the one-hot target: twice the overlap over the sum of the volumes
    when the class occurs in the target, not-a-number otherwise. *)
Definition channel_score (p y : list fnum) : fnum :=
  let intersection := fsum (zip_with fmul y p) in
  let y_o := fsum y in
  let y_pred_o := fsum p in
  if fgt y_o (Fin 0)
  then fdiv (fmul (Fin 2) intersection) (fadd y_o y_pred_o)
  else NaN.

(** The scores, after [nan_to_num], of the listed classes for every sample
    of the batch, sample by sample. *)
Definition class_scores (p y : Tensor fnum) (classes : list nat) : list fnum :=
  b ← seq 0 (dim0 (size p)); c ← classes;
  [nan_to_num1 (channel_score (channel p b c) (channel y b c))].

(** Two predictions of one size that agree on every channel but the
    first. *)
Definition agree_on_foreground (p p' : Tensor fnum) : Prop :=
  size p = size p' /\
  forall b c d h w, (1 <= c)%nat -> item p b c d h w = item p' b c d h w.

(** *** The metric as the specification words it

    "apply a sigmoid activation to the logits; expand the integer label
    volume into one-hot form with the same channel count as the
    prediction; compute the mean Dice overlap coefficient per class per
    sample, excluding the background channel (channel 0); replace any
    not-a-number result with zero; average over all remaining class/sample
    entries to yield one float." *)

(** The Dice coefficient of two masks given by their voxel values:
    twice the overlap over the sum of the two volumes. *)
Definition dice_coefficient (p y : list fnum) : fnum :=
  fdiv (fmul (Fin 2) (fsum (zip_with fmul p y))) (fadd (fsum p) (fsum y)).

Definition nan_to_zero (x : fnum) : fnum :=
  match x with
  | NaN => Fin 0
  | _ => x
  end.

Definition spec_dice (preds target : Tensor fnum) : res fnum :=
  let num_classes := dim1 (size preds) in
  let p := torch_sigmoid sigmoid preds in
  y ← one_hot (tensor_long target) num_classes;
  mret (fmean (b ← seq 0 (dim0 (size preds));
               c ← seq 1 (num_classes - 1);
               [nan_to_zero (dice_coefficient (channel p b c) (channel y b c))])).

End Statements.

(** An activation takes its values among not-a-number and the non-negative
    finite numbers (the logistic function lies between 0 and 1). *)
Definition nonneg_or_nan (x : fnum) : Prop :=
  x = NaN \/ exists q, x = Fin q /\ (0 <= q)%Q.

(** Two log records that differ at most in the prefix of their names,
    ['train'] for the first and ['val'] for the second. *)
Definition renames_prefix (a b : log_call) : Prop :=
  exists suffix,
    name a = "train" +:+ suffix /\ name b = "val" +:+ suffix /\
    value a = value b /\ prog_bar a = prog_bar b /\
    logger a = logger b /\ on_epoch a = on_epoch b.

(** ** Concrete inputs *)

(** [torch.nn.Hardsigmoid]: 0 up to -3, 1 from 3 on and [x/6 + 1/2] in
    between; a rational activation that saturates at both ends, as the
    single-precision logistic function does. *)
Definition hardsigmoid (x : fnum) : fnum :=
  match x with
  | Fin q =>
      if Qle_bool q (-3)%Q then Fin 0
      else if Qle_bool 3%Q q then Fin 1
      else Fin (q / 6 + (1 # 2))%Q
  | PInf => Fin 1
  | NInf => Fin 0
  | NaN => NaN
  end.

(** One sample, one voxel, labelled 0. *)
Definition label_zero : Tensor fnum :=
  mkTensor (mkSize 1 1 1 1 1) (fun _ _ _ _ _ => Fin 0).

(** One sample, one voxel, labelled 1. *)
Definition label_one : Tensor fnum :=
  mkTensor (mkSize 1 1 1 1 1) (fun _ _ _ _ _ => Fin 1).

(** Single-channel logits for one voxel: 0, and 1. *)
Definition logits_1ch_a : Tensor fnum :=
  mkTensor (mkSize 1 1 1 1 1) (fun _ _ _ _ _ => Fin 0).

Definition logits_1ch_b : Tensor fnum :=
  mkTensor (mkSize 1 1 1 1 1)
    (fun _ c _ _ _ => match c with O => Fin 1 | S _ => Fin 0 end).

(** Three channels for one voxel: the one-hot encoding of label 1. *)
Definition onehot_label_one : Tensor fnum :=
  mkTensor (mkSize 1 3 1 1 1)
    (fun _ c _ _ _ => if (1 =? Z.of_nat c)%Z then Fin 1 else Fin 0).

(** Two channels over two voxels labelled 1 and 0, with logits that drive
    [hardsigmoid] to the one-hot encoding of the labels. *)
Definition labels_10 : Tensor fnum :=
  mkTensor (mkSize 1 1 1 1 2)
    (fun _ _ _ _ w => match w with O => Fin 1 | S _ => Fin 0 end).

Definition logits_10 : Tensor fnum :=
  mkTensor (mkSize 1 2 1 1 2)
    (fun _ c _ _ w =>
       match c, w with
       | O, O => Fin (-3)%Q
       | O, S _ => Fin 3
       | S _, O => Fin 3
       | S _, S _ => Fin (-3)%Q
       end).

(** Two channels over two voxels labelled 0 and 0: class 1 is absent from
    the target, and the logits make it absent from the prediction. *)
Definition labels_00 : Tensor fnum :=
  mkTensor (mkSize 1 1 1 1 2) (fun _ _ _ _ _ => Fin 0).

Definition logits_00 : Tensor fnum :=
  mkTensor (mkSize 1 2 1 1 2)
    (fun _ c _ _ _ => match c with O => Fin 3 | S _ => Fin (-3)%Q end).

(** The one-hot encodings of [labels_10] and [labels_00] over two
    channels. *)
Definition onehot_10 : Tensor fnum :=
  mkTensor (mkSize 1 2 1 1 2)
    (fun b c d h w =>
       if (item (tensor_long labels_10) b 0 d h w =? Z.of_nat c)%Z then Fin 1 else Fin 0).

Definition onehot_00 : Tensor fnum :=
  mkTensor (mkSize 1 2 1 1 2)
    (fun b c d h w =>
       if (item (tensor_long labels_00) b 0 d h w =? Z.of_nat c)%Z then Fin 1 else Fin 0).

(** [logits_10] with another background channel. *)
Definition logits_10_alt : Tensor fnum :=
  mkTensor (mkSize 1 2 1 1 2)
    (fun b c d h w =>
       match c with
       | O => Fin 0
       | S _ => item logits_10 b c d h w
       end).

(** Stand-ins for the collaborators: a resolver that finds no file, a
    network that returns its input (one channel in, one channel out) and a
    loss that is constantly zero. *)
Definition no_paths : string -> string -> string -> Q -> option nat -> bool ->
    string -> string -> list string * list string :=
  fun _ _ _ _ _ _ _ _ => ([], []).

Definition identity_net : DenseVNet -> Tensor fnum -> Tensor fnum :=
  fun _ x => x.

Definition zero_loss : DiceLoss -> Tensor fnum -> Tensor fnum -> res fnum :=
  fun _ _ _ => Ok (Fin 0).

Definition example_model : BrainSegmentation3DModel string :=
  default_model string no_paths "data".

Definition batch_zero : gmap string (Tensor fnum) :=
  {[ "image" := logits_1ch_a; "mask" := label_zero ]}.

Definition batch_one : gmap string (Tensor fnum) :=
  {[ "image" := logits_1ch_a; "mask" := label_one ]}.

Definition empty_world : World := mkWorld [] 0.

(** A four-dimensional integer image with one voxel. *)
Definition image_1vox : Tensor4 Z :=
  mkTensor4 (1, 1, 1, 1)%nat (fun _ _ _ _ => 0%Z).

(** A four-dimensional integer image with one voxel of value 5, and a batch
    holding it with a batch dimension, as floats. *)
Definition image_five : Tensor4 Z :=
  mkTensor4 (1, 1, 1, 1)%nat (fun _ _ _ _ => 5%Z).

Definition batch_five : gmap string (Tensor fnum) :=
  {[ "image" := tensor_float (unsqueeze0 image_five); "mask" := label_zero ]}.

(** ** Further definitions used in the statements *)

(** The test [scatter_] makes on the labels given to [one_hot]: every label
    of every sample is a channel index. *)
Definition labels_in_range (labels : Tensor Z) (num_classes : nat) : bool :=
  forallb (fun b => forallb (label_in_range num_classes) (channel labels b 0))
    (seq 0 (dim0 (size labels))).

(** Two sizes with the same batch and spatial dimensions. *)
Definition same_batch_and_volume (s t : Size) : bool :=
  (dim0 s =? dim0 t)%nat && (dim2 s =? dim2 t)%nat && (dim3 s =? dim3 t)%nat
  && (dim4 s =? dim4 t)%nat.

(** A finite value between 0 and 1; an activation with values between 0
    and 1, not-a-number allowed. *)
Definition in_unit (x : fnum) : Prop :=
  exists q, x = Fin q /\ (0 <= q)%Q /\ (q <= 1)%Q.

Definition unit_or_nan (x : fnum) : Prop := x = NaN \/ in_unit x.

(** An empty batch of two-channel logits and its labels. *)
Definition logits_empty : Tensor fnum :=
  mkTensor (mkSize 0 2 1 1 2) (fun _ _ _ _ _ => Fin 0).

Definition labels_empty : Tensor fnum :=
  mkTensor (mkSize 0 1 1 1 2) (fun _ _ _ _ _ => Fin 0).

(** A loss that refuses its input. *)
Definition failing_loss : DiceLoss -> Tensor fnum -> Tensor fnum -> res fnum :=
  fun _ _ _ => Raise AssertionError.

(** A batch without mask. *)
Definition batch_no_mask : gmap string (Tensor fnum) :=
  {[ "image" := logits_1ch_a ]}.

(** Labels 1.5 and 0.25 over two voxels: not integers, truncated to 1 and
    0. *)
Definition labels_fractional : Tensor fnum :=
  mkTensor (mkSize 1 1 1 1 2)
    (fun _ _ _ _ w => match w with O => Fin (3 # 2) | S _ => Fin (1 # 4) end).
(** ** Arithmetic facts about float values *)

Lemma Qzero_true q : Qzero q = true <-> (q == 0)%Q.
Proof. unfold Qzero. apply Qeq_bool_iff. Qed.

Lemma Qzero_false q : Qzero q = false <-> ~ (q == 0)%Q.
Proof.
  rewrite <- Qzero_true. destruct (Qzero q); split; congruence.
Qed.

Lemma Qzero_proper x y : (x == y)%Q -> Qzero x = Qzero y.
Proof.
  intros E. destruct (Qzero y) eqn:Hy.
  - apply Qzero_true. rewrite E. now apply Qzero_true.
  - apply Qzero_false. rewrite E. now apply Qzero_false.
Qed.

Lemma Qneg_proper x y : (x == y)%Q -> Qneg x = Qneg y.
Proof. intros E. unfold Qneg. now rewrite E. Qed.

Lemma Qneg_true q : (q < 0)%Q -> Qneg q = true.
Proof.
  intros H. unfold Qneg. destruct (q ?= 0)%Q eqn:E; [| reflexivity |].
  - apply Qeq_alt in E. lra.
  - apply Qgt_alt in E. lra.
Qed.

Lemma feq_refl a : feq a a.
Proof. destruct a; simpl; auto. reflexivity. Qed.

Lemma feq_sym a b : feq a b -> feq b a.
Proof. destruct a, b; simpl; auto. intros E. now symmetry. Qed.

Lemma feq_trans a b c : feq a b -> feq b c -> feq a c.
Proof.
  destruct a, b, c; simpl; auto; try contradiction.
  intros E1 E2. now rewrite E1.
Qed.

#[export] Instance feq_equiv : Equivalence feq.
Proof. split; [exact feq_refl | exact feq_sym | exact feq_trans]. Qed.

#[export] Instance fadd_proper : Proper (feq ==> feq ==> feq) fadd.
Proof.
  intros a a' Ea b b' Eb.
  destruct a, a'; simpl in Ea; try contradiction;
    destruct b, b'; simpl in Eb; try contradiction; simpl; auto.
  now rewrite Ea, Eb.
Qed.

#[export] Instance fmul_proper : Proper (feq ==> feq ==> feq) fmul.
Proof.
  intros a a' Ea b b' Eb.
  destruct a, a'; simpl in Ea; try contradiction;
    destruct b, b'; simpl in Eb; try contradiction; simpl; auto;
    try (rewrite (Qzero_proper _ _ Ea), (Qneg_proper _ _ Ea);
         apply feq_refl);
    try (rewrite (Qzero_proper _ _ Eb), (Qneg_proper _ _ Eb);
         apply feq_refl).
  now rewrite Ea, Eb.
Qed.

#[export] Instance fdiv_proper : Proper (feq ==> feq ==> feq) fdiv.
Proof.
  intros a a' Ea b b' Eb.
  destruct a, a'; simpl in Ea; try contradiction;
    destruct b, b'; simpl in Eb; try contradiction; simpl; auto;
    try reflexivity;
    try (rewrite (Qneg_proper _ _ Eb); apply feq_refl).
  rewrite (Qzero_proper _ _ Eb), (Qzero_proper _ _ Ea), (Qneg_proper _ _ Ea).
  destruct (Qzero q2); [apply feq_refl |].
  simpl. now rewrite Ea, Eb.
Qed.

Lemma fgt_proper a a' b b' : feq a a' -> feq b b' -> fgt a b = fgt a' b'.
Proof.
  intros Ea Eb.
  destruct a, a'; simpl in Ea; try contradiction;
    destruct b, b'; simpl in Eb; try contradiction; simpl; auto.
  now rewrite Ea, Eb.
Qed.

Lemma fsum_proper l l' : Forall2 feq l l' -> feq (fsum l) (fsum l').
Proof.
  induction 1; simpl; [reflexivity |]. now apply fadd_proper.
Qed.

Definition is_fin (x : fnum) : Prop := exists q, x = Fin q.

Lemma nan_to_num1_fin x : is_fin (nan_to_num1 x).
Proof. destruct x; simpl; eexists; reflexivity. Qed.

Lemma nan_to_num1_proper a b : feq a b -> feq (nan_to_num1 a) (nan_to_num1 b).
Proof. destruct a, b; simpl; auto; try contradiction; reflexivity. Qed.

Lemma fsum_fin l : Forall is_fin l -> is_fin (fsum l).
Proof.
  induction 1 as [| x l [q ->] _ [s IH]]; simpl.
  - now exists 0%Q.
  - rewrite IH. now exists (q + s)%Q.
Qed.

Lemma length_pos_nonzero n : (0 < n)%nat -> Qzero (inject_Z (Z.of_nat n)) = false.
Proof.
  intros Hn. apply Qzero_false. intros E.
  unfold Qeq in E. simpl in E. lia.
Qed.

(** The mean of finitely many finite values, at least one, is finite. *)
Lemma fmean_fin l : Forall is_fin l -> (0 < length l)%nat -> is_fin (fmean l).
Proof.
  intros Hl Hn. destruct (fsum_fin l Hl) as [s Hs].
  unfold fmean. rewrite Hs. simpl.
  rewrite (length_pos_nonzero _ Hn). eexists; reflexivity.
Qed.

Lemma fmean_proper l l' : Forall2 feq l l' -> feq (fmean l) (fmean l').
Proof.
  intros H. unfold fmean.
  assert (Hlen : length l = length l') by (eapply Forall2_length; eassumption).
  rewrite Hlen.
  apply fdiv_proper; [now apply fsum_proper | reflexivity].
Qed.

(** ** Index lists *)

Lemma elem_of_cells r k b c : (b, c) ∈ cells r k <-> (b < r)%nat /\ (c < k)%nat.
Proof.
  unfold cells. rewrite list_elem_of_bind. split.
  - intros (b' & Hin & Hb). apply list_elem_of_bind in Hin as (c' & Hin & Hc).
    apply list_elem_of_singleton in Hin. injection Hin as -> ->.
    apply elem_of_seq in Hb, Hc. lia.
  - intros [Hb Hc]. exists b. split; [| apply elem_of_seq; lia].
    apply list_elem_of_bind. exists c. split; [| apply elem_of_seq; lia].
    now apply list_elem_of_singleton.
Qed.

Lemma length_row (b : nat) l : length (l ≫= fun c : nat => [(b, c)]) = length l.
Proof.
  induction l as [| c l IH]; [reflexivity |].
  rewrite bind_cons. cbn [app length]. now rewrite IH.
Qed.

Lemma length_rows k l :
  length (l ≫= fun b : nat => seq 0 k ≫= fun c : nat => [(b, c)]) = (length l * k)%nat.
Proof.
  induction l as [| b l IH]; [reflexivity |].
  rewrite bind_cons, length_app, IH. cbv beta.
  rewrite length_row, length_seq. simpl. lia.
Qed.

Lemma length_cells r k : length (cells r k) = (r * k)%nat.
Proof. unfold cells. now rewrite length_rows, length_seq. Qed.

Lemma length_entries t : length (entries t) = (rows t * cols t)%nat.
Proof. unfold entries. now rewrite length_map, length_cells. Qed.

Lemma elem_of_voxels s d h w :
  (d, h, w) ∈ voxels s <-> (d < dim2 s)%nat /\ (h < dim3 s)%nat /\ (w < dim4 s)%nat.
Proof.
  unfold voxels. rewrite list_elem_of_bind. split.
  - intros (d' & Hin & Hd). apply list_elem_of_bind in Hin as (h' & Hin & Hh).
    apply list_elem_of_bind in Hin as (w' & Hin & Hw).
    apply list_elem_of_singleton in Hin. injection Hin as -> -> ->.
    apply elem_of_seq in Hd, Hh, Hw. lia.
  - intros (Hd & Hh & Hw). exists d. split; [| apply elem_of_seq; lia].
    apply list_elem_of_bind. exists h. split; [| apply elem_of_seq; lia].
    apply list_elem_of_bind. exists w. split; [| apply elem_of_seq; lia].
    now apply list_elem_of_singleton.
Qed.

(** Tables with related entries have related lists of entries. *)
Lemma entries_Forall2 (R : fnum -> fnum -> Prop) t t' :
  rows t = rows t' -> cols t = cols t' ->
  (forall b c, (b < rows t)%nat -> (c < cols t)%nat -> R (item2 t b c) (item2 t' b c)) ->
  Forall2 R (entries t) (entries t').
Proof.
  intros Hr Hc H. unfold entries. rewrite <- Hr, <- Hc.
  apply Forall2_fmap, Forall_Forall2_diag, Forall_forall.
  intros [b c] Hin. apply list_elem_of_In, elem_of_cells in Hin as [Hb Hk].
  now apply H.
Qed.

Lemma entries_ext t t' :
  rows t = rows t' -> cols t = cols t' ->
  (forall b c, (b < rows t)%nat -> (c < cols t)%nat -> item2 t b c = item2 t' b c) ->
  entries t = entries t'.
Proof.
  intros Hr Hc H. unfold entries. rewrite <- Hr, <- Hc.
  apply map_ext_in. intros [b c] Hin.
  apply list_elem_of_In, elem_of_cells in Hin as [Hb Hk]. now apply H.
Qed.

Lemma entries_Forall (P : fnum -> Prop) t :
  (forall b c, (b < rows t)%nat -> (c < cols t)%nat -> P (item2 t b c)) ->
  Forall P (entries t).
Proof.
  intros H. unfold entries. apply Forall_fmap, Forall_forall.
  intros [b c] Hin. apply list_elem_of_In, elem_of_cells in Hin as [Hb Hk].
  simpl. now apply H.
Qed.

(** ** Sizes *)

Lemma Size_eqb_refl s : Size_eqb s s = true.
Proof. unfold Size_eqb. now rewrite !Nat.eqb_refl. Qed.

Lemma set_dim1_restore s : set_dim1 (set_dim1 s 1) (dim1 s) = s.
Proof. now destruct s. Qed.

(** ** Unfolding the library operations *)

Lemma one_hot_inv labels n y :
  one_hot labels n = Ok y ->
  dim1 (size labels) = 1%nat /\
  y = mkTensor (set_dim1 (size labels) n)
        (fun b c d h w =>
           if (item labels b 0 d h w =? Z.of_nat c)%Z then Fin 1 else Fin 0).
Proof.
  unfold one_hot. destruct (dim1 (size labels) =? 1)%nat eqn:E; simpl; [| discriminate].
  apply Nat.eqb_eq in E.
  destruct (forallb _ _); simpl; [| discriminate].
  intros [= <-]. auto.
Qed.

Lemma compute_meandice_unfold y_pred y :
  compute_meandice y_pred y false =
  let '(p', y') := ignore_background y_pred y in
  if negb (Size_eqb (size y') (size p')) then Raise ValueError
  else Ok (mkTensor2 (dim0 (size y')) (dim1 (size y'))
             (fun b c => dice_entry p' y' b c)).
Proof. reflexivity. Qed.

Section DiceFacts.

Variable sigmoid : fnum -> fnum.

Lemma calculate_dice_scores preds target :
  _calculate_dice sigmoid preds target =
  (m ← dice_scores sigmoid preds target; mret (mean m)).
Proof.
  unfold _calculate_dice, dice_scores.
  destruct (one_hot _ _) as [y |]; [| reflexivity]. simpl.
  destruct (compute_meandice _ _ _); reflexivity.
Qed.

(** With at least two channels the first one is dropped on both sides. *)
Lemma dice_scores_multi preds target y :
  one_hot (tensor_long target) (dim1 (size preds)) = Ok y ->
  size y = size preds ->
  (2 <= dim1 (size preds))%nat ->
  dice_scores sigmoid preds target =
  Ok (mkTensor2 (dim0 (size preds)) (dim1 (size preds) - 1)
        (fun b c => nan_to_num1 (dice_entry (torch_sigmoid sigmoid preds) y b (S c)))).
Proof.
  intros Hy Hs HC. unfold dice_scores. rewrite Hy. simpl.
  rewrite compute_meandice_unfold. unfold ignore_background.
  rewrite Hs. simpl size.
  assert (E : (1 <? dim1 (size preds))%nat = true) by (apply Nat.ltb_lt; lia).
  rewrite E. unfold drop_channel0 at 1 2. simpl size. rewrite Hs, Size_eqb_refl.
  reflexivity.
Qed.

(** A single channel is kept. *)
Lemma dice_scores_single preds target y :
  one_hot (tensor_long target) (dim1 (size preds)) = Ok y ->
  size y = size preds ->
  (dim1 (size preds) <= 1)%nat ->
  dice_scores sigmoid preds target =
  Ok (mkTensor2 (dim0 (size preds)) (dim1 (size preds))
        (fun b c => nan_to_num1 (dice_entry (torch_sigmoid sigmoid preds) y b c))).
Proof.
  intros Hy Hs HC. unfold dice_scores. rewrite Hy. simpl.
  rewrite compute_meandice_unfold. unfold ignore_background.
  rewrite Hs. simpl size.
  assert (E : (1 <? dim1 (size preds))%nat = false) by (apply Nat.ltb_ge; lia).
  rewrite E, Hs, Size_eqb_refl. reflexivity.
Qed.

End DiceFacts.

Section DiceTheorems.

Variable sigmoid : fnum -> fnum.

Lemma channel_agree (p p' : Tensor fnum) b c :
  agree_on_foreground p p' -> (1 <= c)%nat ->
  channel (torch_sigmoid sigmoid p) b c = channel (torch_sigmoid sigmoid p') b c.
Proof.
  intros [Hs Hag] Hc. unfold channel. simpl size. rewrite <- Hs.
  apply map_ext. intros [[d h] w]. simpl. now rewrite Hag.
Qed.

Lemma dice_entry_agree (p p' y : Tensor fnum) b c :
  agree_on_foreground p p' -> (1 <= c)%nat ->
  dice_entry (torch_sigmoid sigmoid p) y b c =
  dice_entry (torch_sigmoid sigmoid p') y b c.
Proof.
  intros Hag Hc. unfold dice_entry.
  rewrite (channel_agree p p' b c Hag Hc).
  replace (channel (tmul y (torch_sigmoid sigmoid p)) b c)
    with (channel (tmul y (torch_sigmoid sigmoid p')) b c); [reflexivity |].
  unfold channel. simpl size. apply map_ext. intros [[d h] w]. simpl.
  destruct Hag as [_ Hag]. now rewrite Hag.
Qed.

(** C2.  When a scored class of a sample is absent from both the one-hot
    target and the sigmoid prediction (both volumes sum to zero, so the Dice
    ratio is 0/0), its entry in the table of scores is zero, the table still
    has one entry for each sample and each scored class and
    [_calculate_dice] returns the mean over all of them, which is a finite
    number and so never not-a-number. *)
Theorem calculate_dice_absent_class_scores_zero preds target y b c :
  one_hot (tensor_long target) (dim1 (size preds)) = Ok y ->
  size y = size preds ->
  (b < dim0 (size preds))%nat ->
  scored (dim1 (size preds)) c ->
  feq (fsum (channel y b c)) (Fin 0) ->
  feq (fsum (channel (torch_sigmoid sigmoid preds) b c)) (Fin 0) ->
  exists m,
    dice_scores sigmoid preds target = Ok m /\
    rows m = dim0 (size preds) /\
    cols m = scored_classes (dim1 (size preds)) /\
    item2 m b (score_column (dim1 (size preds)) c) = Fin 0 /\
    length (entries m) = (dim0 (size preds) * scored_classes (dim1 (size preds)))%nat /\
    _calculate_dice sigmoid preds target = Ok (fmean (entries m)) /\
    exists q, _calculate_dice sigmoid preds target = Ok (Fin q).
Proof.
  intros Hy Hs Hb [Hc Hfg] Hty Htp.
  unfold scored_classes, score_column.
  assert (Hm : exists f,
    dice_scores sigmoid preds target =
      Ok (mkTensor2 (dim0 (size preds))
            (if (1 <? dim1 (size preds))%nat then (dim1 (size preds) - 1)%nat
             else dim1 (size preds)) f) /\
    (forall b' c', is_fin (f b' c')) /\
    f b (if (1 <? dim1 (size preds))%nat then (c - 1)%nat else c) = Fin 0 /\
    (0 < (if (1 <? dim1 (size preds))%nat then (dim1 (size preds) - 1)%nat
          else dim1 (size preds)))%nat).
  { destruct (1 <? dim1 (size preds))%nat eqn:E.
    - apply Nat.ltb_lt in E.
      eexists. split; [apply (dice_scores_multi sigmoid preds target y Hy Hs); lia |].
      split; [intros; apply nan_to_num1_fin |]. split; [| lia].
      cbv beta. replace (S (c - 1)) with c by (specialize (Hfg E); lia).
      unfold dice_entry.
      rewrite (fgt_proper _ (Fin 0) _ (Fin 0) Hty (feq_refl _)). reflexivity.
    - apply Nat.ltb_ge in E.
      eexists. split; [apply (dice_scores_single sigmoid preds target y Hy Hs); lia |].
      split; [intros; apply nan_to_num1_fin |]. split; [| lia].
      cbv beta. unfold dice_entry.
      rewrite (fgt_proper _ (Fin 0) _ (Fin 0) Hty (feq_refl _)). reflexivity. }
  destruct Hm as (f & Hm & Hfin & Hzero & Hpos).
  eexists. split; [exact Hm |].
  rewrite calculate_dice_scores, Hm.
  split; [reflexivity |]. split; [reflexivity |]. split; [exact Hzero |].
  split; [apply length_entries |]. split; [reflexivity |].
  cbn [mbind res_bind rbind]. unfold mret, res_ret, mean.
  match goal with |- exists q, Ok (fmean ?l) = _ =>
    destruct (fmean_fin l) as [q Hq] end.
  - apply entries_Forall. intros. apply Hfin.
  - rewrite length_entries. cbn [rows cols]. apply Nat.mul_pos_pos; lia.
  - exists q. now rewrite Hq.
Qed.

(** With at least two channels, two predictions that agree on every
    foreground channel get the same outcome, whatever their first channels
    are. *)
Lemma calculate_dice_agree_on_foreground preds preds' target :
  (2 <= dim1 (size preds))%nat ->
  agree_on_foreground preds preds' ->
  _calculate_dice sigmoid preds target = _calculate_dice sigmoid preds' target.
Proof.
  intros HC Hag. pose proof Hag as [Hs _].
  unfold _calculate_dice. rewrite <- Hs.
  destruct (one_hot _ _) as [y | e]; [| reflexivity].
  cbn [mbind res_bind rbind].
  rewrite !compute_meandice_unfold. unfold ignore_background.
  simpl size. rewrite <- Hs.
  assert (E : (1 <? dim1 (size preds))%nat = true) by (apply Nat.ltb_lt; lia).
  rewrite E.
  set (y' := if (1 <? dim1 (size y))%nat then drop_channel0 y else y).
  unfold drop_channel0 at 1 3. simpl size. rewrite <- Hs.
  destruct (negb _); [reflexivity |].
  cbn [mbind res_bind rbind]. unfold mret, res_ret. f_equal. unfold mean. f_equal.
  apply entries_ext; [reflexivity | reflexivity |].
  intros b c _ _. cbn [nan_to_num item2]. f_equal.
  unfold dice_entry.
  assert (Hch : channel (drop_channel0 (torch_sigmoid sigmoid preds)) b c
                = channel (drop_channel0 (torch_sigmoid sigmoid preds')) b c).
  { apply (channel_agree preds preds' b (S c) Hag). lia. }
  assert (Hmul : channel (tmul y' (drop_channel0 (torch_sigmoid sigmoid preds))) b c
                 = channel (tmul y' (drop_channel0 (torch_sigmoid sigmoid preds'))) b c).
  { unfold channel. simpl size. apply map_ext. intros [[d h] w]. simpl.
    destruct Hag as [_ Hag]. rewrite Hag by lia. reflexivity. }
  rewrite Hch, Hmul. reflexivity.
Qed.

End DiceTheorems.

(** ** Sums over a channel *)

Definition bit (x : fnum) : Prop := x = Fin 0 \/ x = Fin 1.

(** The three sums [compute_meandice] forms, for a 0/1 mask [Y] and
    values [P] that are non-negative or not-a-number. *)
Lemma overlap_sums {I} (P Y : I -> fnum) (vox : list I) :
  (forall v, nonneg_or_nan (P v)) ->
  (forall v, bit (Y v)) ->
  exists k, fsum (map Y vox) = Fin k /\ (0 <= k)%Q /\
    (fsum (map P vox) = NaN \/
     exists s i i',
       fsum (map P vox) = Fin s /\
       fsum (map (fun v => fmul (Y v) (P v)) vox) = Fin i /\
       fsum (map (fun v => fmul (P v) (Y v)) vox) = Fin i' /\
       (i == i')%Q /\ (0 <= i)%Q /\ (i <= s)%Q /\ ((k == 0)%Q -> (i == 0)%Q)).
Proof.
  intros HP HY. induction vox as [| v vox (k & Hk & Hk0 & IH)]; simpl.
  - exists 0%Q. split; [reflexivity |]. split; [lra |]. right.
    exists 0%Q, 0%Q, 0%Q. repeat split; try reflexivity; lra.
  - rewrite Hk.
    assert (HYv : exists y, Y v = Fin y /\ (y == 0 \/ y == 1)%Q).
    { destruct (HY v) as [-> | ->]; eexists; split; try reflexivity;
        [left | right]; reflexivity. }
    destruct HYv as (y & -> & Hy).
    exists (y + k)%Q. split; [reflexivity |]. split; [destruct Hy; lra |].
    destruct (HP v) as [-> | (q & -> & Hq)]; [now left |].
    destruct IH as [-> | (s & i & i' & -> & -> & -> & Hii & Hi0 & His & Hz)];
      [now left |].
    right. exists (q + s)%Q, (y * q + i)%Q, (q * y + i')%Q. simpl.
    repeat split; try reflexivity.
    + rewrite Hii. ring.
    + destruct Hy as [-> | ->]; lra.
    + destruct Hy as [-> | ->]; lra.
    + intros Hz'. destruct Hy as [Hy | Hy].
      * rewrite Hy in *. rewrite Hz by lra. ring.
      * rewrite Hy in Hz'. lra.
Qed.

(** For a 0/1 mask the overlap with itself is its volume. *)
Lemma mask_self_overlap {I} (Y : I -> fnum) (vox : list I) :
  (forall v, bit (Y v)) ->
  exists k i, fsum (map Y vox) = Fin k /\
    fsum (map (fun v => fmul (Y v) (Y v)) vox) = Fin i /\
    (i == k)%Q /\ (0 <= k)%Q.
Proof.
  intros HY. induction vox as [| v vox (k & i & Hk & Hi & Hik & Hk0)]; simpl.
  - exists 0%Q, 0%Q. repeat split; try reflexivity. lra.
  - rewrite Hk, Hi. destruct (HY v) as [-> | ->]; simpl.
    + exists (0 + k)%Q, (0 * 0 + i)%Q. repeat split; try reflexivity; lra.
    + exists (1 + k)%Q, (1 * 1 + i)%Q. repeat split; try reflexivity; lra.
Qed.

Lemma zip_with_map {I} (f : fnum -> fnum -> fnum) (P Y : I -> fnum) vox :
  zip_with f (map P vox) (map Y vox) = map (fun v => f (P v) (Y v)) vox.
Proof. induction vox as [| v vox IH]; simpl; [reflexivity | now rewrite IH]. Qed.

Lemma fdiv_nan_r a : fdiv a NaN = NaN.
Proof. now destruct a. Qed.

Lemma fgt_Fin_0 k : fgt (Fin k) (Fin 0) = true <-> (0 < k)%Q.
Proof.
  simpl. destruct (k ?= 0)%Q eqn:E.
  - apply Qeq_alt in E. split; [discriminate | lra].
  - apply Qlt_alt in E. split; [discriminate | lra].
  - apply Qgt_alt in E. split; [lra | reflexivity].
Qed.

Lemma one_hot_bit labels n y b c d h w :
  one_hot labels n = Ok y -> bit (item y b c d h w).
Proof.
  intros Hy. apply one_hot_inv in Hy as [_ ->]. simpl.
  destruct (_ =? _)%Z; [now right | now left].
Qed.

(** On a 0/1 target and a prediction without negative entries, the score of
    [compute_meandice] followed by [nan_to_num] is the Dice coefficient with
    not-a-number replaced by zero. *)
Lemma entry_matches_coefficient (p y : Tensor fnum) b c :
  size y = size p ->
  (forall b c d h w, nonneg_or_nan (item p b c d h w)) ->
  (forall b c d h w, bit (item y b c d h w)) ->
  feq (nan_to_num1 (dice_entry p y b c))
      (nan_to_zero (dice_coefficient (channel p b c) (channel y b c))).
Proof.
  intros Hs Hp Hy. unfold dice_entry, dice_coefficient, channel.
  simpl size. rewrite Hs.
  set (P := fun v : nat * nat * nat => let '(d, h, w) := v in item p b c d h w).
  set (Y := fun v : nat * nat * nat => let '(d, h, w) := v in item y b c d h w).
  rewrite (zip_with_map fmul P Y).
  replace (map (fun '(d, h, w) => item (tmul y p) b c d h w) (voxels (size p)))
    with (map (fun v => fmul (Y v) (P v)) (voxels (size p)))
    by (apply map_ext; now intros [[d h] w]).
  destruct (overlap_sums P Y (voxels (size p))) as (k & Hk & Hk0 & Hsum).
  { intros [[d h] w]. apply Hp. }
  { intros [[d h] w]. apply Hy. }
  fold P Y. rewrite Hk.
  destruct Hsum as [HN | (s & i & i' & HP & HI & HI' & Hii & Hi0 & His & Hz)].
  - rewrite HN. simpl fadd. rewrite !fdiv_nan_r.
    destruct (fgt _ _); reflexivity.
  - rewrite HP, HI, HI'. simpl fadd. simpl fmul.
    destruct (fgt (Fin k) (Fin 0)) eqn:Hgt.
    + apply fgt_Fin_0 in Hgt.
      assert (E1 : Qzero (k + s) = false) by (apply Qzero_false; lra).
      assert (E2 : Qzero (s + k) = false) by (apply Qzero_false; lra).
      simpl fdiv. rewrite E1, E2. simpl.
      rewrite Hii. now rewrite (Qplus_comm k s).
    + assert (Hk' : (k == 0)%Q).
      { destruct (Qlt_le_dec 0 k) as [Hlt | Hle]; [| lra].
        apply fgt_Fin_0 in Hlt. congruence. }
      assert (Hi' : (i' == 0)%Q) by (rewrite <- Hii; auto).
      simpl fdiv.
      destruct (Qzero (s + k)) eqn:E.
      * assert (E' : Qzero (2 * i') = true) by (apply Qzero_true; lra).
        rewrite E'. reflexivity.
      * simpl. apply Qzero_false in E. rewrite Hi'.
        unfold Qdiv. ring.
Qed.

(** The table of scores, read row by row, and the specification's list of
    scores over the foreground classes [1 .. K]. *)
Lemma scores_layout (R : fnum -> fnum -> Prop) (F : nat * nat -> fnum)
    (G : nat -> nat -> fnum) B K :
  (forall b c, R (F (b, c)) (G b (S c))) ->
  Forall2 R (map F (cells B K)) (b ← seq 0 B; c ← seq 1 K; [G b c]).
Proof.
  intros H. unfold cells. generalize (seq 0 B) as lb.
  assert (Hrow : forall b s,
    Forall2 R (map F (seq s K ≫= fun c => [(b, c)])) (seq (S s) K ≫= fun c => [G b c])).
  { intros b. induction K as [| K IH]; intros s; [constructor |].
    cbn [seq]. rewrite !bind_cons. cbn [app map].
    constructor; [apply H | apply IH]. }
  induction lb as [| b lb IH]; [constructor |].
  rewrite !bind_cons, map_app. apply Forall2_app; [apply Hrow | apply IH].
Qed.

Lemma inject_nat_succ n :
  (inject_Z (Z.of_nat (S n)) == 1 + inject_Z (Z.of_nat n))%Q.
Proof. rewrite Nat2Z.inj_succ. unfold Z.succ. rewrite inject_Z_plus. simpl. ring. Qed.

Lemma fsum_all_one l :
  Forall (feq (Fin 1)) l ->
  exists s, fsum l = Fin s /\ (s == inject_Z (Z.of_nat (length l)))%Q.
Proof.
  induction 1 as [| x l Hx _ (s & Hs & Hsl)].
  - exists 0%Q. split; reflexivity.
  - destruct x as [q | | |]; simpl in Hx; try contradiction.
    cbn [fsum fold_right]. fold (fsum l). rewrite Hs.
    exists (q + s)%Q. split; [reflexivity |].
    cbn [length]. rewrite inject_nat_succ, <- Hx, Hsl. reflexivity.
Qed.

(** The mean of scores that are all 1 is 1. *)
Lemma fmean_all_one l :
  Forall (feq (Fin 1)) l -> (0 < length l)%nat -> feq (fmean l) (Fin 1).
Proof.
  intros Hl Hn. destruct (fsum_all_one l Hl) as (s & Hs & Hsl).
  unfold fmean. rewrite Hs. simpl.
  pose proof (length_pos_nonzero _ Hn) as Hz. rewrite Hz. simpl.
  apply Qzero_false in Hz. rewrite Hsl. now field.
Qed.

Section DiceRefinement.

Variable sigmoid : fnum -> fnum.

(** C1, as amended.  For logits of shape (batch, classes, D, H, W) with at
    least two classes and labels of shape (batch, 1, D, H, W),
    [_calculate_dice] is the computation the specification describes:
    sigmoid, one-hot expansion with the channel count of the prediction,
    Dice coefficient per sample and per class except channel 0,
    not-a-number replaced by zero, mean of all these entries; it raises
    exactly when the one-hot expansion does, and returns a float
    otherwise. *)
Theorem calculate_dice_refines_spec preds target :
  (forall x, nonneg_or_nan (sigmoid x)) ->
  size target = set_dim1 (size preds) 1 ->
  (2 <= dim1 (size preds))%nat ->
  req (_calculate_dice sigmoid preds target) (spec_dice sigmoid preds target) /\
  (forall y, one_hot (tensor_long target) (dim1 (size preds)) = Ok y ->
     exists v, _calculate_dice sigmoid preds target = Ok v).
Proof.
  intros Hsig Hshape HC.
  destruct (one_hot (tensor_long target) (dim1 (size preds))) as [y | e] eqn:Hy.
  - assert (Hs : size y = size preds).
    { apply one_hot_inv in Hy as [_ ->]. simpl. rewrite Hshape.
      apply set_dim1_restore. }
    rewrite calculate_dice_scores, (dice_scores_multi sigmoid preds target y Hy Hs HC).
    cbn [mbind res_bind rbind]. unfold mret, res_ret.
    split; [| intros _ _; eexists; reflexivity].
    unfold spec_dice. rewrite Hy. cbn [mbind res_bind rbind]. unfold mret, res_ret.
    unfold req, mean, entries. cbn [rows cols item2].
    apply fmean_proper.
    apply (scores_layout feq
             (fun '(b, c) => nan_to_num1 (dice_entry (torch_sigmoid sigmoid preds) y b (S c)))).
    intros b c. apply entry_matches_coefficient.
    + exact Hs.
    + intros. apply Hsig.
    + intros. eapply one_hot_bit, Hy.
  - split; [| intros y' [=]].
    unfold _calculate_dice, spec_dice. rewrite Hy. reflexivity.
Qed.

(** C4, as amended.  When the sigmoid of the prediction equals the one-hot
    target exactly, the batch has at least one sample and the prediction at
    least two channels, and every foreground class occurs in the target of
    every sample, [_calculate_dice] returns 1. *)
Theorem calculate_dice_perfect_prediction preds target y :
  one_hot (tensor_long target) (dim1 (size preds)) = Ok y ->
  size y = size preds ->
  (1 <= dim0 (size preds))%nat ->
  (2 <= dim1 (size preds))%nat ->
  (forall b c d h w,
      (b < dim0 (size preds))%nat -> (c < dim1 (size preds))%nat ->
      (d < dim2 (size preds))%nat -> (h < dim3 (size preds))%nat ->
      (w < dim4 (size preds))%nat ->
      sigmoid (item preds b c d h w) = item y b c d h w) ->
  (forall b c,
      (b < dim0 (size preds))%nat -> (1 <= c < dim1 (size preds))%nat ->
      fgt (fsum (channel y b c)) (Fin 0) = true) ->
  req (_calculate_dice sigmoid preds target) (Ok (Fin 1)).
Proof.
  intros Hy Hs HB HC Hperfect Hpresent.
  rewrite calculate_dice_scores, (dice_scores_multi sigmoid preds target y Hy Hs HC).
  cbn [mbind res_bind rbind]. unfold mret, res_ret, req, mean.
  apply fmean_all_one.
  - apply entries_Forall. cbn [rows cols item2]. intros b c Hb Hc.
    unfold dice_entry, channel. simpl size. rewrite Hs.
    set (Y := fun v : nat * nat * nat => let '(d, h, w) := v in item y b (S c) d h w).
    replace (map (fun '(d, h, w) => item (torch_sigmoid sigmoid preds) b (S c) d h w)
               (voxels (size preds)))
      with (map Y (voxels (size preds))).
    2:{ apply map_ext_in. intros [[d h] w] Hin.
        apply list_elem_of_In, elem_of_voxels in Hin as (Hd & Hh & Hw).
        simpl. symmetry. apply Hperfect; lia. }
    replace (map (fun '(d, h, w) => item (tmul y (torch_sigmoid sigmoid preds)) b (S c) d h w)
               (voxels (size preds)))
      with (map (fun v => fmul (Y v) (Y v)) (voxels (size preds))).
    2:{ apply map_ext_in. intros [[d h] w] Hin.
        apply list_elem_of_In, elem_of_voxels in Hin as (Hd & Hh & Hw).
        simpl. rewrite Hperfect by lia. reflexivity. }
    destruct (mask_self_overlap Y (voxels (size preds))) as (k & i & Hk & Hi & Hik & Hk0).
    { intros [[d h] w]. eapply one_hot_bit, Hy. }
    assert (Hgt : fgt (fsum (map Y (voxels (size preds)))) (Fin 0) = true).
    { specialize (Hpresent b (S c)). unfold channel in Hpresent.
      rewrite Hs in Hpresent. apply Hpresent; lia. }
    fold Y. rewrite Hgt, Hk, Hi. rewrite Hk in Hgt. apply fgt_Fin_0 in Hgt.
    simpl fmul. simpl fadd. simpl fdiv.
    assert (E : Qzero (k + k) = false) by (apply Qzero_false; lra).
    rewrite E. simpl. rewrite Hik. field. lra.
  - rewrite length_entries. cbn [rows cols]. apply Nat.mul_pos_pos; lia.
Qed.

End DiceRefinement.

(** ** The metric on concrete inputs *)

Lemma hardsigmoid_range x : nonneg_or_nan (hardsigmoid x).
Proof.
  destruct x as [q | | |]; cbn [hardsigmoid].
  - right. destruct (Qle_bool q (-3)) eqn:E1; [exists 0%Q; split; [reflexivity | lra] |].
    destruct (Qle_bool 3 q) eqn:E2; [exists 1%Q; split; [reflexivity | lra] |].
    eexists; split; [reflexivity |].
    assert (H : ~ (q <= -3)%Q) by (rewrite <- Qle_bool_iff; congruence).
    assert (Hdiv : (q / 6 == q * (1 # 6))%Q) by field.
    rewrite Hdiv. lra.
  - right. exists 1%Q. split; [reflexivity | lra].
  - right. exists 0%Q. split; [reflexivity | lra].
  - now left.
Qed.

Lemma hardsigmoid_unit x : unit_or_nan (hardsigmoid x).
Proof.
  destruct x as [q | | |]; cbn [hardsigmoid].
  - right. destruct (Qle_bool q (-3)) eqn:E1; [exists 0%Q; repeat split; lra |].
    destruct (Qle_bool 3 q) eqn:E2; [exists 1%Q; repeat split; lra |].
    eexists; split; [reflexivity |].
    assert (H1 : ~ (q <= -3)%Q) by (rewrite <- Qle_bool_iff; congruence).
    assert (H2 : ~ (3 <= q)%Q) by (rewrite <- Qle_bool_iff; congruence).
    assert (Hdiv : (q / 6 == q * (1 # 6))%Q) by field.
    rewrite Hdiv. split; lra.
  - right. exists 1%Q. repeat split; lra.
  - right. exists 0%Q. repeat split; lra.
  - now left.
Qed.

Lemma calculate_dice_absent_class_scores_zero_witness :
  exists m,
    dice_scores hardsigmoid logits_00 labels_00 = Ok m /\
    rows m = 1%nat /\
    cols m = 1%nat /\
    item2 m 0 0 = Fin 0 /\
    length (entries m) = 1%nat /\
    _calculate_dice hardsigmoid logits_00 labels_00 = Ok (fmean (entries m)) /\
    exists q, _calculate_dice hardsigmoid logits_00 labels_00 = Ok (Fin q).
Proof.
  apply (calculate_dice_absent_class_scores_zero
           hardsigmoid logits_00 labels_00 onehot_00 0 1).
  - reflexivity.
  - reflexivity.
  - simpl. lia.
  - split; simpl; lia.
  - vm_compute. reflexivity.
  - vm_compute. reflexivity.
Defined.

Lemma calculate_dice_refines_spec_witness :
  req (_calculate_dice hardsigmoid logits_10 labels_10)
      (spec_dice hardsigmoid logits_10 labels_10) /\
  (forall y, one_hot (tensor_long labels_10) 2 = Ok y ->
     exists v, _calculate_dice hardsigmoid logits_10 labels_10 = Ok v).
Proof.
  apply (calculate_dice_refines_spec hardsigmoid logits_10 labels_10).
  - exact hardsigmoid_range.
  - reflexivity.
  - simpl. lia.
Defined.

Lemma calculate_dice_perfect_prediction_witness :
  req (_calculate_dice hardsigmoid logits_10 labels_10) (Ok (Fin 1)).
Proof.
  apply (calculate_dice_perfect_prediction hardsigmoid logits_10 labels_10 onehot_10).
  - reflexivity.
  - reflexivity.
  - simpl. lia.
  - simpl. lia.
  - simpl. intros b c d h w _ Hc _ _ Hw.
    destruct c as [| [| c]]; [| | lia]; destruct w as [| [| w]]; try lia; reflexivity.
  - simpl. intros b c _ Hc.
    destruct c as [| [| c]]; [lia | | lia]. vm_compute. reflexivity.
Defined.

(** The Dice ratio [2 q / (1 + q)] of a one-voxel class never reaches 2. *)
Lemma one_voxel_ratio_not_two (s : fnum) x :
  nan_to_num1
    (fdiv (fmul (Fin 2) (fadd (fmul (Fin 1) s) (Fin 0)))
          (fadd (fadd (Fin 1) (Fin 0)) (fadd s (Fin 0)))) = Fin x ->
  ~ (x == 2)%Q.
Proof.
  destruct s as [q | | |]; cbn [fmul fadd].
  - cbn [fdiv]. destruct (Qzero (1 + 0 + (q + 0))) eqn:E.
    + apply Qzero_true in E.
      assert (E1 : Qzero (2 * (1 * q + 0)) = false) by (apply Qzero_false; lra).
      assert (E2 : Qneg (2 * (1 * q + 0)) = true) by (apply Qneg_true; lra).
      rewrite E1, E2. cbn [inf_of nan_to_num1]. intros [= <-].
      vm_compute. discriminate.
    + apply Qzero_false in E. cbn [nan_to_num1]. intros [= <-]. intros H.
      apply E.
      pose proof (Qmult_div_r (2 * (1 * q + 0)) (1 + 0 + (q + 0)) E) as H'.
      rewrite H in H'. lra.
  - vm_compute. intros [= <-]. discriminate.
  - vm_compute. intros [= <-]. discriminate.
  - vm_compute. intros [= <-]. discriminate.
Qed.

(** C4, counterexample.  One sample, one voxel labelled 1, three classes,
    and a prediction equal to the one-hot target.  Class 2 is absent from
    the target, so its score is replaced by zero, and whatever the
    activation is the mean is not 1; with the identity as activation, so
    that the prediction entering the Dice computation is the one-hot target
    itself, the mean is 1/2. *)
Lemma calculate_dice_perfect_prediction_counterexample :
  one_hot (tensor_long label_one) 3 = Ok onehot_label_one /\
  _calculate_dice (fun x => x) onehot_label_one label_one = Ok (Fin (2 # 4)) /\
  forall sigmoid,
    ~ req (_calculate_dice sigmoid onehot_label_one label_one) (Ok (Fin 1)).
Proof.
  split; [reflexivity |]. split; [reflexivity |].
  intros sigmoid.
  change (_calculate_dice sigmoid onehot_label_one label_one)
    with (Ok (fmean
      [nan_to_num1
         (fdiv (fmul (Fin 2) (fadd (fmul (Fin 1) (sigmoid (Fin 1))) (Fin 0)))
               (fadd (fadd (Fin 1) (Fin 0)) (fadd (sigmoid (Fin 1)) (Fin 0))));
       Fin 0])).
  destruct (nan_to_num1 _) as [x | | |] eqn:Hx;
    try (destruct (nan_to_num1_fin
           (fdiv (fmul (Fin 2) (fadd (fmul (Fin 1) (sigmoid (Fin 1))) (Fin 0)))
                 (fadd (fadd (Fin 1) (Fin 0)) (fadd (sigmoid (Fin 1)) (Fin 0)))))
           as [? Hq]; congruence).
  apply one_voxel_ratio_not_two in Hx.
  unfold req, fmean. cbn [fsum fold_right fadd length].
  change (Qzero (inject_Z (Z.of_nat 2))) with false in |- *.
  cbn [fdiv]. change (Qzero (inject_Z (Z.of_nat 2))) with false.
  cbn [feq]. intros H. apply Hx.
  assert (H2 : (inject_Z (Z.of_nat 2) == 2)%Q) by reflexivity.
  rewrite H2 in H.
  assert (H3 : (x + (0 + 0) == 1 * 2)%Q).
  { rewrite <- H. field. }
  lra.
Qed.

Lemma Qdiv_one x : (x / inject_Z (Z.of_nat 1) == x)%Q.
Proof. change (inject_Z (Z.of_nat 1)) with 1%Q. field. Qed.

(** The score [2 s / (1 + s)] of a fully labelled one-voxel channel grows
    with the prediction [s]. *)
Lemma one_voxel_ratio_injective s0 s1 :
  (0 < s0)%Q -> (s0 < s1)%Q ->
  ~ (2 * (1 * s0 + 0) / (1 + 0 + (s0 + 0)) == 2 * (1 * s1 + 0) / (1 + 0 + (s1 + 0)))%Q.
Proof.
  intros H0 H1 H.
  assert (E0 : ~ (1 + 0 + (s0 + 0) == 0)%Q) by lra.
  assert (E1 : ~ (1 + 0 + (s1 + 0) == 0)%Q) by lra.
  pose proof (Qmult_div_r (2 * (1 * s0 + 0)) _ E0) as A0.
  pose proof (Qmult_div_r (2 * (1 * s1 + 0)) _ E1) as A1.
  rewrite <- H in A1.
  set (a := (2 * (1 * s0 + 0) / (1 + 0 + (s0 + 0)))%Q) in *.
  assert (Ha : ((s1 - s0) * (a - 2) == 0)%Q).
  { transitivity ((1 + 0 + (s1 + 0)) * a - (1 + 0 + (s0 + 0)) * a - 2 * (s1 - s0))%Q;
      [ring |]. rewrite A0, A1. ring. }
  apply Qmult_integral in Ha as [Ha | Ha]; [lra |].
  assert (Ha' : (a == 2)%Q) by lra.
  rewrite Ha' in A0. lra.
Qed.

(** C1, counterexample.  A prediction with a single channel: the library
    keeps that channel, so the code averages its score and returns a finite
    number (2/3 with the hard sigmoid), whereas computing over the classes
    other than channel 0 leaves nothing to average and gives
    not-a-number. *)
Lemma calculate_dice_refines_spec_counterexample :
  size label_zero = set_dim1 (size logits_1ch_a) 1 /\
  req (_calculate_dice hardsigmoid logits_1ch_a label_zero) (Ok (Fin (2 # 3))) /\
  forall sigmoid,
    spec_dice sigmoid logits_1ch_a label_zero = Ok NaN /\
    (exists q, _calculate_dice sigmoid logits_1ch_a label_zero = Ok (Fin q)) /\
    ~ req (_calculate_dice sigmoid logits_1ch_a label_zero)
          (spec_dice sigmoid logits_1ch_a label_zero).
Proof.
  split; [reflexivity |]. split; [vm_compute; reflexivity |].
  intros sigmoid.
  assert (Hspec : spec_dice sigmoid logits_1ch_a label_zero = Ok NaN) by reflexivity.
  assert (Hcode : exists q, _calculate_dice sigmoid logits_1ch_a label_zero = Ok (Fin q)).
  { rewrite calculate_dice_scores.
    erewrite dice_scores_single; [| reflexivity | reflexivity | simpl; lia].
    cbn [mbind res_bind rbind]. unfold mret, res_ret, mean.
    match goal with |- exists q, Ok (fmean ?l) = _ =>
      destruct (fmean_fin l) as [q Hq] end.
    - apply entries_Forall. intros. apply nan_to_num1_fin.
    - rewrite length_entries. simpl. lia.
    - exists q. now rewrite Hq. }
  split; [exact Hspec |]. split; [exact Hcode |].
  destruct Hcode as [q ->]. rewrite Hspec. simpl. tauto.
Qed.

(** C3, counterexample.  With a single channel the library keeps the
    background channel: two one-channel predictions (logit 0 and logit 1 at
    the only voxel) agree on every foreground channel, and yet their Dice
    values differ for every activation that increases from 0 to 1 (2/3 and
    4/5 with the hard sigmoid). *)
Lemma calculate_dice_ignores_background_counterexample :
  agree_on_foreground logits_1ch_a logits_1ch_b /\
  req (_calculate_dice hardsigmoid logits_1ch_a label_zero) (Ok (Fin (2 # 3))) /\
  req (_calculate_dice hardsigmoid logits_1ch_b label_zero) (Ok (Fin (4 # 5))) /\
  forall sigmoid s0 s1,
    sigmoid (Fin 0) = Fin s0 -> sigmoid (Fin 1) = Fin s1 ->
    (0 < s0)%Q -> (s0 < s1)%Q ->
    ~ req (_calculate_dice sigmoid logits_1ch_a label_zero)
          (_calculate_dice sigmoid logits_1ch_b label_zero).
Proof.
  split.
  { split; [reflexivity |]. intros b c d h w Hc. destruct c; [lia | reflexivity]. }
  split; [vm_compute; reflexivity |]. split; [vm_compute; reflexivity |].
  intros sigmoid s0 s1 Hs0 Hs1 H0 H1.
  change (_calculate_dice sigmoid logits_1ch_a label_zero)
    with (Ok (fmean
      [nan_to_num1
         (fdiv (fmul (Fin 2) (fadd (fmul (Fin 1) (sigmoid (Fin 0))) (Fin 0)))
               (fadd (fadd (Fin 1) (Fin 0)) (fadd (sigmoid (Fin 0)) (Fin 0))))])).
  change (_calculate_dice sigmoid logits_1ch_b label_zero)
    with (Ok (fmean
      [nan_to_num1
         (fdiv (fmul (Fin 2) (fadd (fmul (Fin 1) (sigmoid (Fin 1))) (Fin 0)))
               (fadd (fadd (Fin 1) (Fin 0)) (fadd (sigmoid (Fin 1)) (Fin 0))))])).
  rewrite Hs0, Hs1. cbn [fmul fadd fdiv].
  assert (E0 : Qzero (1 + 0 + (s0 + 0)) = false) by (apply Qzero_false; lra).
  assert (E1 : Qzero (1 + 0 + (s1 + 0)) = false) by (apply Qzero_false; lra).
  rewrite E0, E1. unfold fmean. cbn [nan_to_num1 fsum fold_right fadd length fdiv].
  change (Qzero (inject_Z (Z.of_nat 1))) with false. cbn [req feq].
  rewrite !Qdiv_one. intros H.
  apply (one_voxel_ratio_injective s0 s1 H0 H1).
  etransitivity; [symmetry; apply Qplus_0_r |].
  etransitivity; [exact H | apply Qplus_0_r].
Qed.

(** ** The classes the metric averages *)

Lemma Size_eqb_eq s t : Size_eqb s t = true -> s = t.
Proof.
  destruct s, t. unfold Size_eqb. simpl.
  rewrite !andb_true_iff, !Nat.eqb_eq. intros [[[[-> ->] ->] ->] ->]. reflexivity.
Qed.

(** The table of scores, read row by row, against a list of scores over
    the classes [s .. s + K - 1]. *)
Lemma scores_layout_from (F : nat * nat -> fnum) (G : nat -> nat -> fnum) s B K :
  (forall b c, F (b, c) = G b (s + c)%nat) ->
  map F (cells B K) = (b ← seq 0 B; c ← seq s K; [G b c]).
Proof.
  intros H. unfold cells. generalize (seq 0 B) as lb.
  assert (Hrow : forall b t,
    map F (seq t K ≫= fun c => [(b, c)]) = (seq (s + t) K ≫= fun c => [G b c])).
  { intros b. induction K as [| K IH]; intros t; [reflexivity |].
    cbn [seq]. rewrite !bind_cons. cbn [app map].
    rewrite H, IH. now rewrite Nat.add_succ_r. }
  induction lb as [| b lb IH]; [reflexivity |].
  rewrite !bind_cons, map_app, IH. f_equal.
  rewrite (Hrow b 0%nat). now rewrite Nat.add_0_r.
Qed.

(** The score [compute_meandice] gives to a class reads the channel of
    that class in the prediction and in the target, and nothing else. *)
Lemma dice_entry_channel_score (p y : Tensor fnum) b c :
  size y = size p ->
  dice_entry p y b c = channel_score (channel p b c) (channel y b c).
Proof.
  intros Hs. unfold dice_entry, channel_score, channel. simpl size. rewrite Hs.
  rewrite (zip_with_map fmul
             (fun v : nat * nat * nat => let '(d, h, w) := v in item y b c d h w)
             (fun v : nat * nat * nat => let '(d, h, w) := v in item p b c d h w)).
  replace (map (fun '(d, h, w) => item (tmul y p) b c d h w) (voxels (size p)))
    with (map (fun v : nat * nat * nat =>
                 fmul (let '(d, h, w) := v in item y b c d h w)
                      (let '(d, h, w) := v in item p b c d h w)) (voxels (size p)))
    by (apply map_ext; now intros [[d h] w]).
  reflexivity.
Qed.

Section Foreground.

Variable sigmoid : fnum -> fnum.

(** What [_calculate_dice] returned, when it returned. *)
Lemma calculate_dice_inv preds target v :
  _calculate_dice sigmoid preds target = Ok v ->
  exists y p' y',
    one_hot (tensor_long target) (dim1 (size preds)) = Ok y /\
    ignore_background (torch_sigmoid sigmoid preds) y = (p', y') /\
    size y' = size p' /\
    v = fmean (map (fun '(b, c) => nan_to_num1 (dice_entry p' y' b c))
                 (cells (dim0 (size y')) (dim1 (size y')))).
Proof.
  unfold _calculate_dice.
  destruct (one_hot _ _) as [y |] eqn:Hy; [| discriminate].
  cbn [mbind res_bind rbind]. rewrite compute_meandice_unfold.
  destruct (ignore_background _ _) as [p' y'] eqn:Hig.
  destruct (Size_eqb (size y') (size p')) eqn:Hs; [| discriminate].
  cbn [negb mbind res_bind rbind]. unfold mret, res_ret. intros [= <-].
  exists y, p', y'. split; [reflexivity |]. split; [exact Hig |].
  split; [now apply Size_eqb_eq | reflexivity].
Qed.

(** When [_calculate_dice] returns, the one-hot target has the size of the
    prediction. *)
Lemma calculate_dice_returns_inv preds target v :
  _calculate_dice sigmoid preds target = Ok v ->
  exists y,
    one_hot (tensor_long target) (dim1 (size preds)) = Ok y /\ size y = size preds.
Proof.
  intros Hv. apply calculate_dice_inv in Hv as (y & p' & y' & Hy & Hig & Hs & _).
  exists y. split; [exact Hy |].
  pose proof (one_hot_inv _ _ _ Hy) as [_ Hy'].
  assert (H1 : dim1 (size y) = dim1 (size preds)) by (rewrite Hy'; reflexivity).
  unfold ignore_background in Hig. simpl size in Hig. rewrite H1 in Hig.
  destruct (1 <? dim1 (size preds))%nat; injection Hig as <- <-;
    simpl size in Hs.
  - unfold set_dim1 in Hs. injection Hs as E0 _ E2 E3 E4.
    destruct (size y), (size preds). simpl in *. congruence.
  - exact Hs.
Qed.

(** C3, as amended.  With at least two channels, the value that
    [_calculate_dice] returns is the mean, over every sample and over the
    classes 1 to C-1 only, of the scores of these classes, each computed
    from the channel of its class in the sigmoid prediction and in the
    one-hot target: channel 0 has no entry in the average, and two
    predictions that agree on every foreground channel get the same
    outcome whatever their first channels are.  With a single channel, that
    channel is kept: the value returned is the mean over the samples of the
    score of channel 0. *)
Theorem calculate_dice_ignores_background preds target :
  ((2 <= dim1 (size preds))%nat ->
   (forall v, _calculate_dice sigmoid preds target = Ok v ->
      exists y,
        one_hot (tensor_long target) (dim1 (size preds)) = Ok y /\
        v = fmean (class_scores (torch_sigmoid sigmoid preds) y
                     (seq 1 (dim1 (size preds) - 1)))) /\
   (forall y,
      one_hot (tensor_long target) (dim1 (size preds)) = Ok y ->
      size y = size preds ->
      _calculate_dice sigmoid preds target =
      Ok (fmean (class_scores (torch_sigmoid sigmoid preds) y
                   (seq 1 (dim1 (size preds) - 1))))) /\
   (forall preds',
      agree_on_foreground preds preds' ->
      _calculate_dice sigmoid preds target = _calculate_dice sigmoid preds' target)) /\
  (dim1 (size preds) = 1%nat ->
   (forall v, _calculate_dice sigmoid preds target = Ok v ->
      exists y,
        one_hot (tensor_long target) (dim1 (size preds)) = Ok y /\
        v = fmean (class_scores (torch_sigmoid sigmoid preds) y [0%nat])) /\
   (forall y,
      one_hot (tensor_long target) (dim1 (size preds)) = Ok y ->
      size y = size preds ->
      _calculate_dice sigmoid preds target =
      Ok (fmean (class_scores (torch_sigmoid sigmoid preds) y [0%nat])))).
Proof.
  assert (Hmulti : (2 <= dim1 (size preds))%nat -> forall y,
    one_hot (tensor_long target) (dim1 (size preds)) = Ok y ->
    size y = size preds ->
    _calculate_dice sigmoid preds target =
    Ok (fmean (class_scores (torch_sigmoid sigmoid preds) y
                 (seq 1 (dim1 (size preds) - 1))))).
  { intros HC y Hy Hs.
    rewrite calculate_dice_scores, (dice_scores_multi sigmoid preds target y Hy Hs HC).
    cbn [mbind res_bind rbind]. unfold mret, res_ret, mean, entries, class_scores.
    cbn [rows cols item2]. simpl size. f_equal. f_equal.
    apply (scores_layout_from
             (fun '(b, c) => nan_to_num1 (dice_entry (torch_sigmoid sigmoid preds) y b (S c)))
             (fun b c => nan_to_num1
                (channel_score (channel (torch_sigmoid sigmoid preds) b c) (channel y b c)))
             1).
    intros b c. cbn [Nat.add]. f_equal. now apply dice_entry_channel_score. }
  assert (Hsingle : dim1 (size preds) = 1%nat -> forall y,
    one_hot (tensor_long target) (dim1 (size preds)) = Ok y ->
    size y = size preds ->
    _calculate_dice sigmoid preds target =
    Ok (fmean (class_scores (torch_sigmoid sigmoid preds) y [0%nat]))).
  { intros HC y Hy Hs.
    rewrite calculate_dice_scores, (dice_scores_single sigmoid preds target y Hy Hs);
      [| lia].
    cbn [mbind res_bind rbind]. unfold mret, res_ret, mean, entries, class_scores.
    cbn [rows cols item2]. simpl size. rewrite HC. f_equal. f_equal.
    apply (scores_layout_from
             (fun '(b, c) => nan_to_num1 (dice_entry (torch_sigmoid sigmoid preds) y b c))
             (fun b c => nan_to_num1
                (channel_score (channel (torch_sigmoid sigmoid preds) b c) (channel y b c)))
             0 _ 1).
    intros b c. cbn [Nat.add]. f_equal. now apply dice_entry_channel_score. }
  split.
  - intros HC. split; [| split].
    + intros v Hv. destruct (calculate_dice_returns_inv preds target v Hv) as (y & Hy & Hs).
      exists y. split; [exact Hy |].
      rewrite (Hmulti HC y Hy Hs) in Hv. now injection Hv as <-.
    + exact (Hmulti HC).
    + intros preds' Hag. now apply calculate_dice_agree_on_foreground.
  - intros HC. split.
    + intros v Hv. destruct (calculate_dice_returns_inv preds target v Hv) as (y & Hy & Hs).
      exists y. split; [exact Hy |].
      rewrite (Hsingle HC y Hy Hs) in Hv. now injection Hv as <-.
    + exact (Hsingle HC).
Qed.

End Foreground.

Lemma calculate_dice_ignores_background_witness :
  _calculate_dice hardsigmoid logits_10 labels_10 =
    Ok (fmean (class_scores (torch_sigmoid hardsigmoid logits_10) onehot_10 [1%nat])) /\
  _calculate_dice hardsigmoid logits_10 labels_10 =
    _calculate_dice hardsigmoid logits_10_alt labels_10 /\
  exists y,
    one_hot (tensor_long label_zero) 1 = Ok y /\
    Fin (144 # 216) = fmean (class_scores (torch_sigmoid hardsigmoid logits_1ch_a) y [0%nat]).
Proof.
  destruct (calculate_dice_ignores_background hardsigmoid logits_10 labels_10)
    as [Hmulti _].
  destruct (calculate_dice_ignores_background hardsigmoid logits_1ch_a label_zero)
    as [_ Hsingle].
  destruct Hmulti as (_ & Hvalue & Hagree); [simpl; lia |].
  destruct Hsingle as (Hreturned & _); [reflexivity |].
  split; [| split].
  - apply (Hvalue onehot_10); reflexivity.
  - apply Hagree. split; [reflexivity |]. intros b c d h w Hc.
    destruct c as [| c]; [lia | reflexivity].
  - apply Hreturned. vm_compute. reflexivity.
Defined.

(** ** The step functions *)

Section Steps.

Variable sigmoid : fnum -> fnum.
Variable path_item : Type.
Variable DenseVNet_call : DenseVNet -> Tensor fnum -> Tensor fnum.
Variable DiceLoss_call : DiceLoss -> Tensor fnum -> Tensor fnum -> res fnum.

Local Abbreviation training_step' := (training_step sigmoid path_item DenseVNet_call DiceLoss_call).
Local Abbreviation validation_step' := (validation_step sigmoid path_item DenseVNet_call DiceLoss_call).

(** C5.  On the same batch and from the same world, [training_step] and
    [validation_step] end in the same way: the same returned record or the
    same exception (same model call, same loss, same Dice metric on the same
    inputs); they allocate the same objects, and the records they log are
    the same up to the prefix of their names, ['train'] against ['val']. *)
Theorem training_step_validation_step_same
    (self : BrainSegmentation3DModel path_item)
    (batch : gmap string (Tensor fnum)) (batch_id batch_id' : nat) (w : World) :
  (training_step' self batch batch_id w).1 = (validation_step' self batch batch_id' w).1 /\
  next_object (training_step' self batch batch_id w).2 =
    next_object (validation_step' self batch batch_id' w).2 /\
  exists lt lv,
    logged (training_step' self batch batch_id w).2 = logged w ++ lt /\
    logged (validation_step' self batch batch_id' w).2 = logged w ++ lv /\
    Forall2 renames_prefix lt lv.
Proof.
  unfold training_step, validation_step, _log_metrics, lift, log.
  unfold mbind, M_bind, mret, M_ret. cbv beta.
  destruct (getitem batch (img_key self)) as [image |].
  2:{ cbn. repeat split. exists [], []. rewrite app_nil_r. repeat split. constructor. }
  destruct (getitem batch (lbl_key self)) as [label |].
  2:{ cbn. repeat split. exists [], []. rewrite app_nil_r. repeat split. constructor. }
  destruct (DiceLoss_call _ _ _) as [loss_value |].
  2:{ cbn. repeat split. exists [], []. rewrite app_nil_r. repeat split. constructor. }
  destruct (_calculate_dice sigmoid _ label) as [dice_value |].
  - cbn [fst snd logged next_object]. repeat split.
    exists [mkLog "train_loss" loss_value true true true;
            mkLog "train_dice" dice_value true true true],
           [mkLog "val_loss" loss_value true true true;
            mkLog "val_dice" dice_value true true true].
    rewrite <- !app_assoc. repeat split.
    repeat constructor.
    + exists "_loss". repeat split.
    + exists "_dice". repeat split.
  - cbn [fst snd logged next_object]. repeat split.
    exists [mkLog "train_loss" loss_value true true true],
           [mkLog "val_loss" loss_value true true true].
    repeat split. repeat constructor. exists "_loss". repeat split.
Qed.

End Steps.

(** ** A module built by its constructor *)

Section Constructed.

Variable sigmoid : fnum -> fnum.
Variable path_item : Type.
Variable get_train_val_paths :
  string -> string -> string -> Q -> option nat -> bool -> string -> string ->
  list path_item * list path_item.
Variable DenseVNet_call : DenseVNet -> Tensor fnum -> Tensor fnum.
Variable DiceLoss_call : DiceLoss -> Tensor fnum -> Tensor fnum -> res fnum.

Local Abbreviation learning_rate_of := (@learning_rate path_item).
Local Abbreviation batch_size_of := (@batch_size path_item).
Local Abbreviation num_processes_of := (@num_processes path_item).

Variables (dataset_folder : string) (train_split_percent : Q)
  (dataset_item_limit : option nat) (shuffle_dataset : bool)
  (image_pattern mask_pattern : string) (spatial_size : nat * nat * nat)
  (batch_size num_processes : nat) (learning_rate : Q)
  (in_channels out_channels : nat).

Local Abbreviation self :=
  (__init__ path_item get_train_val_paths dataset_folder train_split_percent
     dataset_item_limit shuffle_dataset image_pattern mask_pattern spatial_size
     batch_size num_processes learning_rate in_channels out_channels).
Local Abbreviation net := (DenseVNet_call (mkDenseVNet in_channels out_channels)).
Local Abbreviation training_step' :=
  (training_step sigmoid path_item DenseVNet_call DiceLoss_call).
Local Abbreviation validation_step' :=
  (validation_step sigmoid path_item DenseVNet_call DiceLoss_call).

Lemma init_fields :
  img_key self = "image" /\ lbl_key self = "mask" /\
  model self = mkDenseVNet in_channels out_channels /\
  loss self = mkDiceLoss true true true true /\
  learning_rate_of self = learning_rate /\
  batch_size_of self = batch_size /\
  num_processes_of self = num_processes /\
  load_transform self =
    get_load_transforms "image" "mask" [1; 2; 4]%Z [1; 2; 3]%Z spatial_size /\
  (train_paths self, val_paths self) =
    get_train_val_paths dataset_folder "image" "mask" train_split_percent
      dataset_item_limit shuffle_dataset image_pattern mask_pattern.
Proof.
  unfold __init__. destruct (get_train_val_paths _ _ _ _ _ _ _ _). repeat split.
Qed.

Lemma step_run (prefix : string) batch w image label loss_value dice_value :
  batch !! "image" = Some image ->
  batch !! "mask" = Some label ->
  DiceLoss_call (mkDiceLoss true true true true) (net image) label = Ok loss_value ->
  _calculate_dice sigmoid (net image) label = Ok dice_value ->
  forall batch_id,
  training_step' self batch batch_id w =
    (Ok {[ "loss" := Scalar loss_value; "pred" := TensorV (net image);
           "label" := TensorV label ]},
     mkWorld (logged w ++ [mkLog "train_loss" loss_value true true true]
                ++ [mkLog "train_dice" dice_value true true true])
       (next_object w)) /\
  validation_step' self batch batch_id w =
    (Ok {[ "loss" := Scalar loss_value; "pred" := TensorV (net image);
           "label" := TensorV label ]},
     mkWorld (logged w ++ [mkLog "val_loss" loss_value true true true]
                ++ [mkLog "val_dice" dice_value true true true])
       (next_object w)).
Proof.
  intros Hi Hl Hloss Hdice batch_id.
  destruct init_fields as (Ki & Kl & Km & Ko & _).
  unfold training_step, validation_step, _log_metrics, lift, log, getitem.
  unfold mbind, M_bind, mret, M_ret. cbv beta.
  rewrite Ki, Kl, Km, Ko, Hi, Hl, Hloss, Hdice.
  cbn [logged next_object]. rewrite <- !app_assoc. split; reflexivity.
Qed.

(** C6, as amended.  For every batch with the keys ['image'] and ['mask']
    on which the loss and the Dice metric are computed without raising,
    [training_step] and [validation_step] each return a record with exactly
    the keys ['loss'], ['pred'] and ['label']: the loss computed on the model
    output and the batch label, the raw model output for the batch image,
    and the batch mask. *)
Theorem step_returns_loss_pred_label batch batch_id w image label loss_value dice_value :
  batch !! "image" = Some image ->
  batch !! "mask" = Some label ->
  DiceLoss_call (mkDiceLoss true true true true) (net image) label = Ok loss_value ->
  _calculate_dice sigmoid (net image) label = Ok dice_value ->
  exists r wt wv,
    training_step' self batch batch_id w = (Ok r, wt) /\
    validation_step' self batch batch_id w = (Ok r, wv) /\
    dom r = ({[ "loss"; "pred"; "label" ]} : gset string) /\
    r !! "loss" = Some (Scalar loss_value) /\
    r !! "pred" = Some (TensorV (net image)) /\
    r !! "label" = Some (TensorV label).
Proof.
  intros Hi Hl Hloss Hdice.
  destruct (step_run "" batch w image label loss_value dice_value Hi Hl Hloss Hdice batch_id)
    as [Ht Hv].
  eexists _, _, _. split; [exact Ht |]. split; [exact Hv |].
  split; [| repeat split].
  rewrite !dom_insert_L, dom_singleton_L. set_solver.
Qed.

(** C7.  [configure_optimizers] returns an Adam optimizer over the model's
    parameters at the learning rate given to the constructor, and a
    reduce-on-plateau scheduler of that optimizer with factor 0.5, patience
    5, threshold 0.001 and mode ['min'], monitoring ['val_loss']. *)
Theorem configure_optimizers_adam_plateau :
  lr (cfg_optimizer (configure_optimizers path_item self)) = learning_rate /\
  params (cfg_optimizer (configure_optimizers path_item self)) =
    mkDenseVNet in_channels out_channels /\
  optimizer (scheduler (cfg_lr_scheduler (configure_optimizers path_item self))) =
    cfg_optimizer (configure_optimizers path_item self) /\
  factor (scheduler (cfg_lr_scheduler (configure_optimizers path_item self))) = (1 # 2)%Q /\
  patience (scheduler (cfg_lr_scheduler (configure_optimizers path_item self))) = 5%nat /\
  threshold (scheduler (cfg_lr_scheduler (configure_optimizers path_item self))) = (1 # 1000)%Q /\
  mode (scheduler (cfg_lr_scheduler (configure_optimizers path_item self))) = "min" /\
  monitor (cfg_lr_scheduler (configure_optimizers path_item self)) = "val_loss".
Proof.
  destruct init_fields as (_ & _ & Km & _ & Klr & _).
  unfold configure_optimizers. cbn [cfg_optimizer cfg_lr_scheduler scheduler lr params
    optimizer factor patience threshold mode monitor].
  rewrite Km, Klr. repeat split.
Qed.

(** C8.  The load pipeline configured by the constructor maps a label
    volume whose values are among 1, 2 and 4 to a mask whose values are
    among 1, 2 and 3, voxel by voxel, sending 4 to 3 and keeping 1 and 2. *)
Theorem load_mask_remaps_labels (volume : list Z) :
  Forall (fun v => v = 1 \/ v = 2 \/ v = 4)%Z volume ->
  Forall (fun v => v = 1 \/ v = 2 \/ v = 3)%Z (load_mask (load_transform self) volume) /\
  Forall2 (fun v v' => v' = if (v =? 4)%Z then 3%Z else v) volume
    (load_mask (load_transform self) volume).
Proof.
  destruct init_fields as (_ & _ & _ & _ & _ & _ & _ & Kt & _).
  rewrite Kt. unfold load_mask, get_load_transforms.
  cbn [orig_labels target_labels].
  induction 1 as [| v volume Hv _ [IH1 IH2]]; [split; constructor |].
  cbn [map]. split; constructor; try assumption;
    destruct Hv as [-> | [-> | ->]]; cbn; auto.
Qed.

(** C9.  Whatever [shuffle_dataset] was given to the constructor,
    [train_dataloader] builds its loader with shuffling on and
    [val_dataloader] with shuffling off, each over a dataset made from the
    stored path list and load pipeline; a second call builds a new dataset
    object, distinct from the first. *)
Theorem dataloaders_shuffle_and_rebuild (w : World) :
  (exists d1 d2 w1 w2,
     train_dataloader path_item self w = (Ok d1, w1) /\
     train_dataloader path_item self w1 = (Ok d2, w2) /\
     shuffle d1 = true /\ shuffle d2 = true /\
     image_mask_paths (dataset d1) = train_paths self /\
     image_mask_paths (dataset d2) = train_paths self /\
     load_transforms (dataset d1) = load_transform self /\
     dl_batch_size d1 = batch_size /\ num_workers d1 = num_processes /\
     dataset_id (dataset d1) = next_object w /\
     dataset_id (dataset d1) <> dataset_id (dataset d2)) /\
  (exists d1 d2 w1 w2,
     val_dataloader path_item self w = (Ok d1, w1) /\
     val_dataloader path_item self w1 = (Ok d2, w2) /\
     shuffle d1 = false /\ shuffle d2 = false /\
     image_mask_paths (dataset d1) = val_paths self /\
     image_mask_paths (dataset d2) = val_paths self /\
     load_transforms (dataset d1) = load_transform self /\
     dl_batch_size d1 = batch_size /\ num_workers d1 = num_processes /\
     dataset_id (dataset d1) = next_object w /\
     dataset_id (dataset d1) <> dataset_id (dataset d2)).
Proof.
  destruct init_fields as (_ & _ & _ & _ & _ & Kb & Kn & _).
  split; eexists _, _, _, _;
    (split; [reflexivity |]); (split; [reflexivity |]);
    cbn [shuffle dataset image_mask_paths load_transforms dl_batch_size num_workers
         dataset_id next_object];
    repeat split; auto; lia.
Qed.

(** C10.  [forward] adds a leading batch dimension of size one to the
    image, converts it to floats, calls the model and returns the sigmoid of
    its output.  On a batch with both keys on which the loss and the metric
    are computed, [training_step] and [validation_step] return, and what
    they return under ['pred'] is the output of the model on the batch image
    as it is.  So on the same input [forward] returns the sigmoid of what a
    step returns, entry by entry, and the two differ at every entry where
    the model's output is a number outside [0, 1], for an activation with
    values in [0, 1]. *)
Theorem forward_applies_sigmoid_steps_do_not {A} `{ToFloat A}
    (image : Tensor4 A) batch batch_id w x label loss_value dice_value :
  batch !! "image" = Some x ->
  batch !! "mask" = Some label ->
  DiceLoss_call (mkDiceLoss true true true true) (net x) label = Ok loss_value ->
  _calculate_dice sigmoid (net x) label = Ok dice_value ->
  forward sigmoid path_item DenseVNet_call self image =
    torch_sigmoid sigmoid (net (tensor_float (unsqueeze0 image))) /\
  dim0 (size (unsqueeze0 image)) = 1%nat /\
  (forall b c d h k,
     item (tensor_float (unsqueeze0 image)) b c d h k = to_float (item4 image c d h k)) /\
  (exists r wt wv,
     training_step' self batch batch_id w = (Ok r, wt) /\
     validation_step' self batch batch_id w = (Ok r, wv) /\
     r !! "pred" = Some (TensorV (net x))) /\
  (x = tensor_float (unsqueeze0 image) ->
   forall b c d h k,
     item (forward sigmoid path_item DenseVNet_call self image) b c d h k =
       sigmoid (item (net x) b c d h k) /\
     ((forall z, unit_or_nan (sigmoid z)) ->
      item (net x) b c d h k <> NaN ->
      ~ in_unit (item (net x) b c d h k) ->
      item (forward sigmoid path_item DenseVNet_call self image) b c d h k <>
        item (net x) b c d h k)).
Proof.
  intros Hi Hl Hloss Hdice.
  destruct init_fields as (Ki & Kl & Km & Ko & _).
  assert (Hfwd : forward sigmoid path_item DenseVNet_call self image =
                 torch_sigmoid sigmoid (net (tensor_float (unsqueeze0 image)))).
  { unfold forward. now rewrite Km. }
  split; [exact Hfwd |].
  split; [unfold unsqueeze0; now destruct (size4 image) as [[[c d] h] k] |].
  split; [intros; unfold unsqueeze0; now destruct (size4 image) as [[[? ?] ?] ?] |].
  split.
  - destruct (step_run "" batch w x label loss_value dice_value Hi Hl Hloss Hdice batch_id)
      as [Ht Hv].
    eexists _, _, _. split; [exact Ht |]. split; [exact Hv |]. reflexivity.
  - intros -> b c d h k.
    assert (Hentry : item (forward sigmoid path_item DenseVNet_call self image) b c d h k =
                     sigmoid (item (net (tensor_float (unsqueeze0 image))) b c d h k))
      by now rewrite Hfwd.
    split; [exact Hentry |].
    intros Hsig Hnan Hout Heq. rewrite Hentry in Heq.
    destruct (Hsig (item (net (tensor_float (unsqueeze0 image))) b c d h k)) as [E | E].
    + apply Hnan. now rewrite <- Heq.
    + apply Hout. now rewrite <- Heq.
Qed.

End Constructed.

(** ** The module on concrete inputs *)

Example example_model_keys :
  img_key example_model = "image" /\ lbl_key example_model = "mask".
Proof. split; reflexivity. Qed.

Example load_mask_example :
  load_mask (load_transform example_model) [0; 1; 2; 4; 4]%Z = [0; 1; 2; 3; 3]%Z.
Proof. reflexivity. Qed.

Lemma step_returns_loss_pred_label_witness :
  exists r wt wv,
    training_step hardsigmoid string identity_net zero_loss example_model
      batch_zero 0 empty_world = (Ok r, wt) /\
    validation_step hardsigmoid string identity_net zero_loss example_model
      batch_zero 0 empty_world = (Ok r, wv) /\
    dom r = ({[ "loss"; "pred"; "label" ]} : gset string) /\
    r !! "loss" = Some (Scalar (Fin 0)) /\
    r !! "pred" = Some (TensorV (identity_net (mkDenseVNet 1 1) logits_1ch_a)) /\
    r !! "label" = Some (TensorV label_zero).
Proof.
  apply (step_returns_loss_pred_label hardsigmoid string no_paths identity_net zero_loss
           "data" (7 # 10) (Some 1%nat) true "**/*_flair.nii.gz" "**/*_seg.nii.gz"
           (196, 196, 128)%nat 2 1 (1 # 1000) 1 1
           batch_zero 0 empty_world logits_1ch_a label_zero (Fin 0) (Fin (144 # 216))).
  - reflexivity.
  - reflexivity.
  - reflexivity.
  - vm_compute. reflexivity.
Defined.

Lemma load_mask_remaps_labels_witness :
  Forall (fun v => v = 1 \/ v = 2 \/ v = 3)%Z
    (load_mask (load_transform example_model) [1; 2; 4; 4]%Z) /\
  Forall2 (fun v v' => v' = if (v =? 4)%Z then 3%Z else v) [1; 2; 4; 4]%Z
    (load_mask (load_transform example_model) [1; 2; 4; 4]%Z).
Proof.
  apply (load_mask_remaps_labels string no_paths
           "data" (7 # 10) (Some 1%nat) true "**/*_flair.nii.gz" "**/*_seg.nii.gz"
           (196, 196, 128)%nat 2 1 (1 # 1000) 1 1 [1; 2; 4; 4]%Z).
  repeat (constructor; [lia |]). constructor.
Defined.

Lemma forward_applies_sigmoid_steps_do_not_witness :
  forward hardsigmoid string identity_net example_model image_five =
    torch_sigmoid hardsigmoid
      (identity_net (mkDenseVNet 1 1) (tensor_float (unsqueeze0 image_five))) /\
  (exists (r : gmap string pyvalue) wt wv,
     training_step hardsigmoid string identity_net zero_loss example_model
       batch_five 0 empty_world = (Ok r, wt) /\
     validation_step hardsigmoid string identity_net zero_loss example_model
       batch_five 0 empty_world = (Ok r, wv) /\
     r !! "pred" =
       Some (TensorV (identity_net (mkDenseVNet 1 1)
                        (tensor_float (unsqueeze0 image_five))))) /\
  item (forward hardsigmoid string identity_net example_model image_five) 0 0 0 0 0 <>
    item (identity_net (mkDenseVNet 1 1) (tensor_float (unsqueeze0 image_five))) 0 0 0 0 0.
Proof.
  destruct (forward_applies_sigmoid_steps_do_not hardsigmoid string no_paths identity_net
              zero_loss
              "data" (7 # 10) (Some 1%nat) true "**/*_flair.nii.gz" "**/*_seg.nii.gz"
              (196, 196, 128)%nat 2 1 (1 # 1000) 1 1
              image_five batch_five 0 empty_world
              (tensor_float (unsqueeze0 image_five)) label_zero (Fin 0) (Fin (2 # 2)))
    as (Hfwd & _ & _ & Hstep & Hdiff).
  - reflexivity.
  - reflexivity.
  - reflexivity.
  - vm_compute. reflexivity.
  - split; [exact Hfwd |]. split; [exact Hstep |].
    apply (Hdiff eq_refl 0%nat 0%nat 0%nat 0%nat 0%nat).
    + exact hardsigmoid_unit.
    + discriminate.
    + intros (q & Hq & _ & Hq1). vm_compute in Hq. injection Hq as <-.
      vm_compute in Hq1. apply Hq1. reflexivity.
Defined.

(** The entry [forward] returns for the one-voxel image is the sigmoid of
    the logit, 1/2, where a step returns the logit 0 itself. *)
Example forward_differs_from_step_prediction :
  feq (item (forward hardsigmoid string identity_net example_model image_1vox) 0 0 0 0 0)
      (Fin (1 # 2)) /\
  feq (item (identity_net (model example_model) (tensor_float (unsqueeze0 image_1vox)))
         0 0 0 0 0)
      (Fin 0).
Proof. split; vm_compute; reflexivity. Qed.

(** C6, counterexample.  On a batch with the keys ['image'] and ['mask']
    the record a step returns has the key ['pred'] and no key
    ['prediction']; and on such a batch whose mask holds a label outside the
    channels of the prediction, the Dice computation raises and the step
    returns no record. *)
Lemma step_returns_loss_pred_label_counterexample :
  (exists (r : gmap string pyvalue) w',
     training_step hardsigmoid string identity_net zero_loss example_model
       batch_zero 0 empty_world = (Ok r, w') /\
     r !! "prediction" = None /\
     is_Some (r !! "pred") /\
     dom r <> ({[ "loss"; "prediction"; "label" ]} : gset string)) /\
  is_Some (batch_one !! "image") /\
  is_Some (batch_one !! "mask") /\
  (training_step hardsigmoid string identity_net zero_loss example_model
     batch_one 0 empty_world).1 = Raise RuntimeError /\
  (validation_step hardsigmoid string identity_net zero_loss example_model
     batch_one 0 empty_world).1 = Raise RuntimeError.
Proof.
  split.
  - eexists _, _. split; [vm_compute; reflexivity |].
    split; [reflexivity |]. split; [eexists; reflexivity |].
    intros Heq.
    assert (Hin : "pred" ∈ dom (<[ "loss" := Scalar (Fin 0) ]>
              (<[ "pred" := TensorV logits_1ch_a ]>
                 ({[ "label" := TensorV label_zero ]} : gmap string pyvalue)))).
    { rewrite !dom_insert_L. set_solver. }
    revert Hin. rewrite !dom_insert_L, dom_singleton_L. intros _.
    assert (Hnot : "pred" ∉ ({[ "loss"; "prediction"; "label" ]} : gset string)).
    { set_solver. }
    apply Hnot. rewrite <- Heq. apply elem_of_dom. eexists. reflexivity.
  - split; [eexists; reflexivity |]. split; [eexists; reflexivity |].
    split; reflexivity.
Qed.

(** ** Outcomes of the metric *)

Lemma Size_eqb_set_dim1 s t k :
  Size_eqb (set_dim1 s k) (set_dim1 t k) = same_batch_and_volume s t.
Proof.
  unfold Size_eqb, same_batch_and_volume. simpl. rewrite Nat.eqb_refl.
  now rewrite andb_true_r.
Qed.

Lemma Size_eqb_set_dim1_l s t :
  Size_eqb (set_dim1 s (dim1 t)) t = same_batch_and_volume s t.
Proof.
  unfold Size_eqb, same_batch_and_volume. simpl. rewrite Nat.eqb_refl.
  now rewrite andb_true_r.
Qed.

Lemma same_batch_and_volume_set_dim1 s t k :
  same_batch_and_volume (set_dim1 s k) t = same_batch_and_volume s t.
Proof. reflexivity. Qed.

Lemma forallb_false_witness {A} (f : A -> bool) l x :
  In x l -> f x = false -> forallb f l = false.
Proof.
  intros Hin Hf. destruct (forallb f l) eqn:E; [| reflexivity].
  rewrite forallb_forall in E. rewrite (E x Hin) in Hf. discriminate.
Qed.

Section DiceOutcome.

Variable sigmoid : fnum -> fnum.

(** [_calculate_dice] raises [AssertionError] when the target does not
    have exactly one channel; otherwise [RuntimeError] when some label,
    truncated to an integer, is not a channel index of the prediction;
    otherwise [ValueError] when target and prediction differ in batch size
    or in a spatial dimension; and otherwise it returns a value. *)
Lemma calculate_dice_cases preds target :
  (dim1 (size target) <> 1%nat ->
   _calculate_dice sigmoid preds target = Raise AssertionError) /\
  (dim1 (size target) = 1%nat ->
   labels_in_range (tensor_long target) (dim1 (size preds)) = false ->
   _calculate_dice sigmoid preds target = Raise RuntimeError) /\
  (dim1 (size target) = 1%nat ->
   labels_in_range (tensor_long target) (dim1 (size preds)) = true ->
   same_batch_and_volume (size target) (size preds) = false ->
   _calculate_dice sigmoid preds target = Raise ValueError) /\
  (dim1 (size target) = 1%nat ->
   labels_in_range (tensor_long target) (dim1 (size preds)) = true ->
   same_batch_and_volume (size target) (size preds) = true ->
   exists v, _calculate_dice sigmoid preds target = Ok v).
Proof.
  assert (Hshape : forall b : bool,
    dim1 (size target) = 1%nat ->
    labels_in_range (tensor_long target) (dim1 (size preds)) = true ->
    same_batch_and_volume (size target) (size preds) = b ->
    if b then exists v, _calculate_dice sigmoid preds target = Ok v
    else _calculate_dice sigmoid preds target = Raise ValueError).
  { intros b H1 Hr Hsame. unfold _calculate_dice, one_hot.
    fold (labels_in_range (tensor_long target) (dim1 (size preds))).
    simpl size. rewrite H1, Hr. cbn [Nat.eqb negb mbind res_bind rbind].
    rewrite compute_meandice_unfold. unfold ignore_background. simpl size.
    cbn [dim1 set_dim1].
    destruct (1 <? dim1 (size preds))%nat.
    - unfold drop_channel0. simpl size. cbn [dim1 set_dim1].
      rewrite Size_eqb_set_dim1, same_batch_and_volume_set_dim1, Hsame.
      destruct b; [eexists |]; reflexivity.
    - simpl size. rewrite Size_eqb_set_dim1_l, Hsame.
      destruct b; [eexists |]; reflexivity. }
  repeat split.
  - intros H1. unfold _calculate_dice, one_hot. simpl size.
    apply Nat.eqb_neq in H1. rewrite H1. reflexivity.
  - intros H1 Hr. unfold _calculate_dice, one_hot.
    fold (labels_in_range (tensor_long target) (dim1 (size preds))).
    simpl size. rewrite H1, Hr. reflexivity.
  - intros H1 Hr Hsame. exact (Hshape false H1 Hr Hsame).
  - intros H1 Hr Hsame. exact (Hshape true H1 Hr Hsame).
Qed.

(** X4.  [_calculate_dice] raises [AssertionError] when the target does not
    have exactly one channel; otherwise [RuntimeError] when some label,
    truncated to an integer, is not a channel index of the prediction;
    otherwise [ValueError] when target and prediction differ in batch size
    or in a spatial dimension; and otherwise it returns a value. *)
Theorem calculate_dice_outcome preds target :
  (dim1 (size target) <> 1%nat ->
   _calculate_dice sigmoid preds target = Raise AssertionError) /\
  (dim1 (size target) = 1%nat ->
   labels_in_range (tensor_long target) (dim1 (size preds)) = false ->
   _calculate_dice sigmoid preds target = Raise RuntimeError) /\
  (dim1 (size target) = 1%nat ->
   labels_in_range (tensor_long target) (dim1 (size preds)) = true ->
   same_batch_and_volume (size target) (size preds) = false ->
   _calculate_dice sigmoid preds target = Raise ValueError) /\
  (dim1 (size target) = 1%nat ->
   labels_in_range (tensor_long target) (dim1 (size preds)) = true ->
   same_batch_and_volume (size target) (size preds) = true ->
   exists v, _calculate_dice sigmoid preds target = Ok v).
Proof. exact (calculate_dice_cases preds target). Qed.

(** A label at a position of a one-channel target that, truncated to
    an integer, is negative or not below the number of channels of the
    prediction makes [_calculate_dice] raise [RuntimeError]. *)
Lemma label_out_of_range_raises preds target b d h w :
  dim1 (size target) = 1%nat ->
  (b < dim0 (size target))%nat -> (d < dim2 (size target))%nat ->
  (h < dim3 (size target))%nat -> (w < dim4 (size target))%nat ->
  (long (item target b 0 d h w) < 0 \/
   Z.of_nat (dim1 (size preds)) <= long (item target b 0 d h w))%Z ->
  _calculate_dice sigmoid preds target = Raise RuntimeError.
Proof.
  intros H1 Hb Hd Hh Hw Hout.
  apply (calculate_dice_cases preds target); [exact H1 |].
  unfold labels_in_range. simpl size.
  apply (forallb_false_witness _ _ b); [apply in_seq; lia |].
  apply (forallb_false_witness _ _ (long (item target b 0 d h w))).
  - unfold channel. simpl size.
    apply (in_map (fun '(d, h, w) => item (tensor_long target) b 0 d h w)
             (voxels (size target)) (d, h, w)).
    apply list_elem_of_In, elem_of_voxels. lia.
  - unfold label_in_range. apply andb_false_iff.
    destruct Hout; [left; apply Z.leb_gt | right; apply Z.ltb_ge]; lia.
Qed.

(** X9.  A label at a position of a one-channel target that, truncated to
    an integer, is negative or not below the number of channels of the
    prediction makes [_calculate_dice] raise [RuntimeError]. *)
Theorem calculate_dice_label_out_of_range preds target b d h w :
  dim1 (size target) = 1%nat ->
  (b < dim0 (size target))%nat -> (d < dim2 (size target))%nat ->
  (h < dim3 (size target))%nat -> (w < dim4 (size target))%nat ->
  (long (item target b 0 d h w) < 0 \/
   Z.of_nat (dim1 (size preds)) <= long (item target b 0 d h w))%Z ->
  _calculate_dice sigmoid preds target = Raise RuntimeError.
Proof. exact (label_out_of_range_raises preds target b d h w). Qed.

(** X7.  On an empty batch (no sample) with a one-channel target of
    matching spatial size, [_calculate_dice] returns not-a-number: there is
    no score to average. *)
Theorem calculate_dice_empty_batch preds target :
  dim0 (size preds) = 0%nat ->
  dim1 (size target) = 1%nat ->
  same_batch_and_volume (size target) (size preds) = true ->
  _calculate_dice sigmoid preds target = Ok NaN.
Proof.
  intros H0 H1 Hsame.
  assert (H0' : dim0 (size target) = 0%nat).
  { unfold same_batch_and_volume in Hsame. rewrite !andb_true_iff in Hsame.
    destruct Hsame as [[[E _] _] _]. apply Nat.eqb_eq in E. lia. }
  destruct (calculate_dice_cases preds target) as (_ & _ & _ & Hok).
  destruct Hok as [v Hv]; [exact H1 | | exact Hsame |].
  { unfold labels_in_range. simpl size. now rewrite H0'. }
  rewrite Hv. f_equal.
  apply calculate_dice_inv in Hv as (y & p' & y' & Hy & Hig & Hs & ->).
  assert (Hrows : dim0 (size y') = 0%nat).
  { apply one_hot_inv in Hy as [_ ->]. unfold ignore_background in Hig.
    injection Hig as _ <-. simpl size.
    destruct (1 <? _)%nat; simpl; exact H0'. }
  rewrite Hrows. reflexivity.
Qed.

End DiceOutcome.

(** ** Range of the metric *)

Lemma overlap_bounds {I} (P Y : I -> fnum) (vox : list I) :
  (forall v, unit_or_nan (P v)) ->
  (forall v, bit (Y v)) ->
  exists k, fsum (map Y vox) = Fin k /\ (0 <= k)%Q /\
    (fsum (map P vox) = NaN \/
     exists s i,
       fsum (map P vox) = Fin s /\
       fsum (map (fun v => fmul (Y v) (P v)) vox) = Fin i /\
       (0 <= i)%Q /\ (i <= s)%Q /\ (i <= k)%Q).
Proof.
  intros HP HY. induction vox as [| v vox (k & Hk & Hk0 & IH)]; simpl.
  - exists 0%Q. split; [reflexivity |]. split; [lra |]. right.
    exists 0%Q, 0%Q. repeat split; try reflexivity; lra.
  - rewrite Hk.
    assert (HYv : exists y, Y v = Fin y /\ (y == 0 \/ y == 1)%Q).
    { destruct (HY v) as [-> | ->]; eexists; split; try reflexivity;
        [left | right]; reflexivity. }
    destruct HYv as (y & -> & Hy).
    exists (y + k)%Q. split; [reflexivity |]. split; [destruct Hy; lra |].
    destruct (HP v) as [-> | (q & -> & Hq0 & Hq1)]; [now left |].
    destruct IH as [-> | (s & i & -> & -> & Hi0 & His & Hik)]; [now left |].
    right. exists (q + s)%Q, (y * q + i)%Q. simpl.
    repeat split; try reflexivity; destruct Hy as [-> | ->]; lra.
Qed.

(** A score of [compute_meandice], after [nan_to_num], lies between 0 and
    1 when the target is a 0/1 mask and the prediction lies between 0 and
    1. *)
Lemma entry_in_unit (p y : Tensor fnum) b c :
  size y = size p ->
  (forall b c d h w, unit_or_nan (item p b c d h w)) ->
  (forall b c d h w, bit (item y b c d h w)) ->
  in_unit (nan_to_num1 (dice_entry p y b c)).
Proof.
  intros Hs Hp Hy. unfold dice_entry, channel. simpl size. rewrite Hs.
  set (P := fun v : nat * nat * nat => let '(d, h, w) := v in item p b c d h w).
  set (Y := fun v : nat * nat * nat => let '(d, h, w) := v in item y b c d h w).
  replace (map (fun '(d, h, w) => item (tmul y p) b c d h w) (voxels (size p)))
    with (map (fun v => fmul (Y v) (P v)) (voxels (size p)))
    by (apply map_ext; now intros [[d h] w]).
  destruct (overlap_bounds P Y (voxels (size p))) as (k & Hk & Hk0 & Hsum).
  { intros [[d h] w]. apply Hp. }
  { intros [[d h] w]. apply Hy. }
  fold P Y. rewrite Hk.
  assert (Hzero : in_unit (Fin 0)) by (exists 0%Q; repeat split; lra).
  destruct Hsum as [HN | (s & i & HP & HI & Hi0 & His & Hik)].
  - rewrite HN. simpl fadd. rewrite fdiv_nan_r.
    destruct (fgt _ _); exact Hzero.
  - rewrite HP, HI. simpl fadd. simpl fmul.
    destruct (fgt (Fin k) (Fin 0)) eqn:Hgt; [| exact Hzero].
    apply fgt_Fin_0 in Hgt.
    assert (E : Qzero (k + s) = false) by (apply Qzero_false; lra).
    simpl fdiv. rewrite E. cbn [nan_to_num1].
    eexists. split; [reflexivity |]. split.
    + apply Qle_shift_div_l; lra.
    + apply Qle_shift_div_r; lra.
Qed.

Lemma fsum_in_unit l :
  Forall in_unit l ->
  exists s, fsum l = Fin s /\ (0 <= s)%Q /\ (s <= inject_Z (Z.of_nat (length l)))%Q.
Proof.
  induction 1 as [| x l (q & -> & Hq0 & Hq1) _ (s & Hs & Hs0 & Hs1)].
  - exists 0%Q. split; [reflexivity |]. split; [lra | apply Qle_refl].
  - cbn [fsum fold_right]. fold (fsum l). rewrite Hs.
    exists (q + s)%Q. split; [reflexivity |].
    cbn [length]. rewrite inject_nat_succ. split; lra.
Qed.

(** The mean of values between 0 and 1, at least one, lies between 0 and 1. *)
Lemma fmean_in_unit l : Forall in_unit l -> (0 < length l)%nat -> in_unit (fmean l).
Proof.
  intros Hl Hn. destruct (fsum_in_unit l Hl) as (s & Hs & Hs0 & Hs1).
  unfold fmean. rewrite Hs. simpl.
  pose proof (length_pos_nonzero _ Hn) as Hz. rewrite Hz.
  apply Qzero_false in Hz.
  assert (Hpos : (0 < inject_Z (Z.of_nat (length l)))%Q).
  { assert (H0 : (0 <= inject_Z (Z.of_nat (length l)))%Q).
    { change 0%Q with (inject_Z 0). rewrite <- Zle_Qle. lia. }
    lra. }
  eexists. split; [reflexivity |]. split.
  - apply Qle_shift_div_l; lra.
  - apply Qle_shift_div_r; lra.
Qed.

Lemma fsum_all_zero l :
  Forall (feq (Fin 0)) l -> exists s, fsum l = Fin s /\ (s == 0)%Q.
Proof.
  induction 1 as [| x l Hx _ (s & Hs & Hs0)].
  - exists 0%Q. split; reflexivity.
  - destruct x as [q | | |]; simpl in Hx; try contradiction.
    cbn [fsum fold_right]. fold (fsum l). rewrite Hs.
    exists (q + s)%Q. split; [reflexivity |]. rewrite <- Hx, Hs0. ring.
Qed.

(** The mean of scores that are all 0 is 0. *)
Lemma fmean_all_zero l :
  Forall (feq (Fin 0)) l -> (0 < length l)%nat -> feq (fmean l) (Fin 0).
Proof.
  intros Hl Hn. destruct (fsum_all_zero l Hl) as (s & Hs & Hs0).
  unfold fmean. rewrite Hs. simpl.
  pose proof (length_pos_nonzero _ Hn) as Hz. rewrite Hz. simpl.
  apply Qzero_false in Hz. rewrite Hs0. now field.
Qed.

(** The sums of a 0/1 mask against a prediction that is zero everywhere. *)
Lemma zero_prediction_sums {I} (Y : I -> fnum) (vox : list I) :
  (forall v, bit (Y v)) ->
  exists k s i,
    fsum (map Y vox) = Fin k /\ (0 <= k)%Q /\
    fsum (map (fun _ => Fin 0) vox) = Fin s /\ (s == 0)%Q /\
    fsum (map (fun v => fmul (Y v) (Fin 0)) vox) = Fin i /\ (i == 0)%Q.
Proof.
  intros HY. induction vox as [| v vox (k & s & i & Hk & Hk0 & Hs & Hs0 & Hi & Hi0)]; simpl.
  - exists 0%Q, 0%Q, 0%Q. repeat split; try reflexivity. lra.
  - rewrite Hk, Hs, Hi. destruct (HY v) as [-> | ->]; simpl.
    + exists (0 + k)%Q, (0 + s)%Q, (0 * 0 + i)%Q. repeat split; try reflexivity; lra.
    + exists (1 + k)%Q, (0 + s)%Q, (1 * 0 + i)%Q. repeat split; try reflexivity; lra.
Qed.

Lemma dice_entry_ext (p y y' : Tensor fnum) b c :
  size y = size y' ->
  (forall b c d h w, item y b c d h w = item y' b c d h w) ->
  dice_entry p y b c = dice_entry p y' b c.
Proof.
  intros Hs H. unfold dice_entry, channel. simpl size. rewrite Hs.
  replace (map (fun '(d, h, w) => item y b c d h w) (voxels (size y')))
    with (map (fun '(d, h, w) => item y' b c d h w) (voxels (size y')))
    by (apply map_ext; intros [[d h] w]; symmetry; apply H).
  replace (map (fun '(d, h, w) => item (tmul y p) b c d h w) (voxels (size y')))
    with (map (fun '(d, h, w) => item (tmul y' p) b c d h w) (voxels (size y')))
    by (apply map_ext; intros [[d h] w]; simpl; now rewrite H).
  reflexivity.
Qed.

Lemma ignore_background_inv (p y p' y' : Tensor fnum) :
  ignore_background p y = (p', y') ->
  (forall Q : fnum -> Prop,
     (forall b c d h w, Q (item p b c d h w)) -> forall b c d h w, Q (item p' b c d h w)) /\
  (forall Q : fnum -> Prop,
     (forall b c d h w, Q (item y b c d h w)) -> forall b c d h w, Q (item y' b c d h w)) /\
  dim0 (size p') = dim0 (size p) /\
  dim1 (size p') = scored_classes (dim1 (size p)).
Proof.
  unfold ignore_background, scored_classes. intros [= <- <-].
  repeat split.
  - intros Q HQ b c d h w. destruct (1 <? _)%nat; simpl; apply HQ.
  - intros Q HQ b c d h w. destruct (1 <? _)%nat; simpl; apply HQ.
  - destruct (1 <? _)%nat; reflexivity.
  - destruct (1 <? _)%nat; reflexivity.
Qed.

Section DiceRange.

Variable sigmoid : fnum -> fnum.

(** X5.  For an activation with values between 0 and 1 (not-a-number
    allowed), a batch of at least one sample and a prediction of at least
    one channel, every value [_calculate_dice] returns is a finite number
    between 0 and 1. *)
Theorem calculate_dice_between_0_and_1 preds target v :
  (forall x, unit_or_nan (sigmoid x)) ->
  (1 <= dim0 (size preds))%nat ->
  (1 <= dim1 (size preds))%nat ->
  _calculate_dice sigmoid preds target = Ok v ->
  in_unit v.
Proof.
  intros Hsig HB HC Hv.
  apply calculate_dice_inv in Hv as (y & p' & y' & Hy & Hig & Hs & ->).
  destruct (ignore_background_inv _ _ _ _ Hig) as (Hp' & Hy' & Hd0 & Hd1).
  simpl size in Hd0, Hd1.
  apply fmean_in_unit.
  - apply Forall_fmap, Forall_forall. intros [b c] _. simpl.
    apply entry_in_unit.
    + exact Hs.
    + apply (Hp' unit_or_nan). intros. apply Hsig.
    + apply (Hy' bit). intros. eapply one_hot_bit, Hy.
  - rewrite length_map, length_cells, Hs, Hd0, Hd1.
    apply Nat.mul_pos_pos; [lia |].
    unfold scored_classes. destruct (1 <? dim1 (size preds))%nat eqn:E; [| lia].
    apply Nat.ltb_lt in E. lia.
Qed.

(** X6.  A prediction whose sigmoid is zero on every foreground channel
    scores 0, whatever the target is (also a target without foreground),
    on a batch of at least one sample with at least two channels. *)
Theorem calculate_dice_background_only_prediction preds target y :
  one_hot (tensor_long target) (dim1 (size preds)) = Ok y ->
  size y = size preds ->
  (1 <= dim0 (size preds))%nat ->
  (2 <= dim1 (size preds))%nat ->
  (forall b c d h w,
      (b < dim0 (size preds))%nat -> (1 <= c < dim1 (size preds))%nat ->
      (d < dim2 (size preds))%nat -> (h < dim3 (size preds))%nat ->
      (w < dim4 (size preds))%nat ->
      sigmoid (item preds b c d h w) = Fin 0) ->
  req (_calculate_dice sigmoid preds target) (Ok (Fin 0)).
Proof.
  intros Hy Hs HB HC Hzero.
  rewrite calculate_dice_scores, (dice_scores_multi sigmoid preds target y Hy Hs HC).
  cbn [mbind res_bind rbind]. unfold mret, res_ret, req, mean.
  apply fmean_all_zero.
  - apply entries_Forall. cbn [rows cols item2]. intros b c Hb Hc.
    unfold dice_entry, channel. simpl size. rewrite Hs.
    set (Y := fun v : nat * nat * nat => let '(d, h, w) := v in item y b (S c) d h w).
    replace (map (fun '(d, h, w) => item (torch_sigmoid sigmoid preds) b (S c) d h w)
               (voxels (size preds)))
      with (map (fun _ : nat * nat * nat => Fin 0) (voxels (size preds))).
    2:{ apply map_ext_in. intros [[d h] w] Hin.
        apply list_elem_of_In, elem_of_voxels in Hin as (Hd & Hh & Hw).
        simpl. symmetry. apply Hzero; lia. }
    replace (map (fun '(d, h, w) => item (tmul y (torch_sigmoid sigmoid preds)) b (S c) d h w)
               (voxels (size preds)))
      with (map (fun v => fmul (Y v) (Fin 0)) (voxels (size preds))).
    2:{ apply map_ext_in. intros [[d h] w] Hin.
        apply list_elem_of_In, elem_of_voxels in Hin as (Hd & Hh & Hw).
        simpl. rewrite Hzero by lia. reflexivity. }
    destruct (zero_prediction_sums Y (voxels (size preds)))
      as (k & s & i & Hk & Hk0 & Hsz & Hs0 & Hi & Hi0).
    { intros [[d h] w]. eapply one_hot_bit, Hy. }
    fold Y. rewrite Hk, Hsz, Hi.
    destruct (fgt (Fin k) (Fin 0)) eqn:Hgt; [| reflexivity].
    apply fgt_Fin_0 in Hgt.
    simpl fmul. simpl fadd. simpl fdiv.
    assert (E : Qzero (k + s) = false) by (apply Qzero_false; lra).
    rewrite E. simpl. rewrite Hi0. field. lra.
  - rewrite length_entries. cbn [rows cols]. apply Nat.mul_pos_pos; lia.
Qed.

(** X10.  [_calculate_dice] sees the target only through its labels
    truncated to integers: two targets of one size whose labels truncate to
    the same integers give the same outcome. *)
Theorem calculate_dice_truncates_labels preds target target' :
  size target = size target' ->
  (forall b d h w, long (item target b 0 d h w) = long (item target' b 0 d h w)) ->
  _calculate_dice sigmoid preds target = _calculate_dice sigmoid preds target'.
Proof.
  intros Hs Hlong. unfold _calculate_dice, one_hot. simpl size. rewrite <- Hs.
  destruct (negb (dim1 (size target) =? 1)%nat); [reflexivity |].
  assert (Hch : forall b, channel (tensor_long target) b 0 = channel (tensor_long target') b 0).
  { intros b. unfold channel. simpl size. rewrite <- Hs.
    apply map_ext. intros [[d h] w]. simpl. apply Hlong. }
  replace (forallb (fun b => forallb (label_in_range (dim1 (size preds)))
                               (channel (tensor_long target') b 0)) (seq 0 (dim0 (size target))))
    with (forallb (fun b => forallb (label_in_range (dim1 (size preds)))
                              (channel (tensor_long target) b 0)) (seq 0 (dim0 (size target)))).
  2:{ induction (seq 0 (dim0 (size target))) as [| b l IH]; [reflexivity |].
      cbn [forallb]. now rewrite IH, Hch. }
  destruct (negb (forallb _ _)); [reflexivity |].
  cbn [mbind res_bind rbind]. rewrite !compute_meandice_unfold.
  unfold ignore_background. simpl size. cbn [dim1 set_dim1].
  destruct (1 <? dim1 (size preds))%nat.
  - unfold drop_channel0. simpl size.
    destruct (negb (Size_eqb _ _)); [reflexivity |].
    cbn [mbind res_bind rbind]. unfold mret, res_ret, mean. f_equal. f_equal.
    apply entries_ext; [reflexivity | reflexivity |].
    intros b c _ _. cbn [nan_to_num item2]. f_equal.
    apply dice_entry_ext; [reflexivity |]. intros.
    cbn [item drop_channel0 tensor_long tmap]. now rewrite Hlong.
  - destruct (negb (Size_eqb _ _)); [reflexivity |].
    cbn [mbind res_bind rbind]. unfold mret, res_ret, mean. f_equal. f_equal.
    apply entries_ext; [reflexivity | reflexivity |].
    intros b c _ _. cbn [nan_to_num item2]. f_equal.
    apply dice_entry_ext; [reflexivity |]. intros.
    cbn [item tensor_long tmap]. now rewrite Hlong.
Qed.

End DiceRange.

(** ** Failures of a step *)

Section StepFailures.

Variable sigmoid : fnum -> fnum.
Variable path_item : Type.
Variable DenseVNet_call : DenseVNet -> Tensor fnum -> Tensor fnum.
Variable DiceLoss_call : DiceLoss -> Tensor fnum -> Tensor fnum -> res fnum.

Local Abbreviation training_step' :=
  (training_step sigmoid path_item DenseVNet_call DiceLoss_call).
Local Abbreviation validation_step' :=
  (validation_step sigmoid path_item DenseVNet_call DiceLoss_call).

Implicit Type self : BrainSegmentation3DModel path_item.

Ltac run_step :=
  unfold training_step, validation_step, _log_metrics, lift, log, getitem;
  unfold mbind, M_bind, mret, M_ret; cbv beta.

(** X1.  When the batch lacks the image key or the label key of the
    module, both steps raise [KeyError] and leave the world as it was:
    nothing is logged. *)
Theorem step_missing_key self batch batch_id w :
  batch !! img_key self = None \/ batch !! lbl_key self = None ->
  training_step sigmoid path_item DenseVNet_call DiceLoss_call self batch batch_id w =
    (Raise KeyError, w) /\
  validation_step sigmoid path_item DenseVNet_call DiceLoss_call self batch batch_id w =
    (Raise KeyError, w).
Proof.
  intros Hmiss. run_step.
  destruct (batch !! img_key self) as [image |]; [| split; reflexivity].
  destruct Hmiss as [[=] | ->]. split; reflexivity.
Qed.

(** X2.  When the loss raises on the model output and the label, both
    steps raise the same exception and leave the world as it was: the
    metric is not computed and nothing is logged. *)
Theorem step_loss_raises self batch batch_id w image label e :
  batch !! img_key self = Some image ->
  batch !! lbl_key self = Some label ->
  DiceLoss_call (loss self) (DenseVNet_call (model self) image) label = Raise e ->
  training_step sigmoid path_item DenseVNet_call DiceLoss_call self batch batch_id w =
    (Raise e, w) /\
  validation_step sigmoid path_item DenseVNet_call DiceLoss_call self batch batch_id w =
    (Raise e, w).
Proof.
  intros Hi Hl Hloss. run_step. rewrite Hi, Hl, Hloss. split; reflexivity.
Qed.

Lemma step_metric_raises_run self batch batch_id w image label loss_value e :
  batch !! img_key self = Some image ->
  batch !! lbl_key self = Some label ->
  DiceLoss_call (loss self) (DenseVNet_call (model self) image) label = Ok loss_value ->
  _calculate_dice sigmoid (DenseVNet_call (model self) image) label = Raise e ->
  training_step' self batch batch_id w =
    (Raise e,
     mkWorld (logged w ++ [mkLog "train_loss" loss_value true true true])
       (next_object w)) /\
  validation_step' self batch batch_id w =
    (Raise e,
     mkWorld (logged w ++ [mkLog "val_loss" loss_value true true true])
       (next_object w)).
Proof.
  intros Hi Hl Hloss Hdice. run_step. rewrite Hi, Hl, Hloss, Hdice.
  split; reflexivity.
Qed.

(** X3.  When the loss is computed and the Dice metric raises, both steps
    raise the metric's exception, but only after logging the loss: the
    world then holds exactly one more record, the loss under
    ['train_loss'] or ['val_loss'], and no Dice record. *)
Theorem step_metric_raises self batch batch_id w image label loss_value e :
  batch !! img_key self = Some image ->
  batch !! lbl_key self = Some label ->
  DiceLoss_call (loss self) (DenseVNet_call (model self) image) label = Ok loss_value ->
  _calculate_dice sigmoid (DenseVNet_call (model self) image) label = Raise e ->
  training_step' self batch batch_id w =
    (Raise e,
     mkWorld (logged w ++ [mkLog "train_loss" loss_value true true true])
       (next_object w)) /\
  validation_step' self batch batch_id w =
    (Raise e,
     mkWorld (logged w ++ [mkLog "val_loss" loss_value true true true])
       (next_object w)).
Proof. exact (step_metric_raises_run self batch batch_id w image label loss_value e). Qed.

(** X11.  When the model returns a single channel and the one-channel mask
    of the batch holds, at some position, a label that truncates to 1 or
    more, both steps fail with [RuntimeError] after logging the loss. *)
Theorem step_single_channel_foreground_label
    self batch batch_id w image label loss_value b d h k :
  batch !! img_key self = Some image ->
  batch !! lbl_key self = Some label ->
  DiceLoss_call (loss self) (DenseVNet_call (model self) image) label = Ok loss_value ->
  dim1 (size (DenseVNet_call (model self) image)) = 1%nat ->
  dim1 (size label) = 1%nat ->
  (b < dim0 (size label))%nat -> (d < dim2 (size label))%nat ->
  (h < dim3 (size label))%nat -> (k < dim4 (size label))%nat ->
  (1 <= long (item label b 0 d h k))%Z ->
  (training_step' self batch batch_id w).1 = Raise RuntimeError /\
  (validation_step' self batch batch_id w).1 = Raise RuntimeError /\
  logged (training_step' self batch batch_id w).2 =
    logged w ++ [mkLog "train_loss" loss_value true true true] /\
  logged (validation_step' self batch batch_id w).2 =
    logged w ++ [mkLog "val_loss" loss_value true true true].
Proof.
  intros Hi Hl Hloss Hc1 Hl1 Hb Hd Hh Hk Hfg.
  assert (Hdice : _calculate_dice sigmoid (DenseVNet_call (model self) image) label
                  = Raise RuntimeError).
  { apply (label_out_of_range_raises sigmoid _ label b d h k); try assumption.
    right. rewrite Hc1. simpl. lia. }
  destruct (step_metric_raises_run self batch batch_id w image label loss_value
              RuntimeError Hi Hl Hloss Hdice) as [-> ->].
  repeat split.
Qed.

(** X8.  The name the scheduler monitors is the name under which
    [validation_step] logs its loss, with epoch aggregation on, as soon as
    the loss is computed; and [training_step] never logs a record of that
    name. *)
Theorem scheduler_monitors_validation_loss
    self batch batch_id w image label loss_value :
  batch !! img_key self = Some image ->
  batch !! lbl_key self = Some label ->
  DiceLoss_call (loss self) (DenseVNet_call (model self) image) label = Ok loss_value ->
  In (mkLog (monitor (cfg_lr_scheduler (configure_optimizers path_item self)))
        loss_value true true true)
     (logged (validation_step' self batch batch_id w).2) /\
  (forall r, In r (logged (training_step' self batch batch_id w).2) ->
     In r (logged w) \/
     name r <> monitor (cfg_lr_scheduler (configure_optimizers path_item self))).
Proof.
  intros Hi Hl Hloss. run_step. rewrite Hi, Hl, Hloss.
  cbn [configure_optimizers cfg_lr_scheduler monitor].
  destruct (_calculate_dice _ _ _) as [dice_value |]; cbn [snd logged]; split.
  - rewrite <- app_assoc. apply in_or_app. right. left. reflexivity.
  - intros r Hr. rewrite <- app_assoc in Hr. apply in_app_or in Hr as [Hr | Hr]; [now left |].
    right. destruct Hr as [<- | [<- | []]]; discriminate.
  - apply in_or_app. right. left. reflexivity.
  - intros r Hr. apply in_app_or in Hr as [Hr | Hr]; [now left |].
    right. destruct Hr as [<- | []]. discriminate.
Qed.

End StepFailures.

(** ** The further properties on concrete inputs *)

Lemma step_missing_key_witness :
  training_step hardsigmoid string identity_net zero_loss example_model
    batch_no_mask 0 empty_world = (Raise KeyError, empty_world) /\
  validation_step hardsigmoid string identity_net zero_loss example_model
    batch_no_mask 0 empty_world = (Raise KeyError, empty_world).
Proof.
  apply (step_missing_key hardsigmoid string identity_net zero_loss example_model
           batch_no_mask 0 empty_world).
  right. reflexivity.
Defined.

Lemma step_loss_raises_witness :
  training_step hardsigmoid string identity_net failing_loss example_model
    batch_zero 0 empty_world = (Raise AssertionError, empty_world) /\
  validation_step hardsigmoid string identity_net failing_loss example_model
    batch_zero 0 empty_world = (Raise AssertionError, empty_world).
Proof.
  apply (step_loss_raises hardsigmoid string identity_net failing_loss example_model
           batch_zero 0 empty_world logits_1ch_a label_zero AssertionError);
    reflexivity.
Defined.

Lemma step_metric_raises_witness :
  training_step hardsigmoid string identity_net zero_loss example_model
    batch_one 0 empty_world =
    (Raise RuntimeError, mkWorld [mkLog "train_loss" (Fin 0) true true true] 0) /\
  validation_step hardsigmoid string identity_net zero_loss example_model
    batch_one 0 empty_world =
    (Raise RuntimeError, mkWorld [mkLog "val_loss" (Fin 0) true true true] 0).
Proof.
  apply (step_metric_raises hardsigmoid string identity_net zero_loss example_model
           batch_one 0 empty_world logits_1ch_a label_one (Fin 0) RuntimeError);
    reflexivity.
Defined.

Lemma calculate_dice_outcome_witness :
  _calculate_dice hardsigmoid logits_10 logits_10 = Raise AssertionError /\
  _calculate_dice hardsigmoid logits_1ch_a label_one = Raise RuntimeError /\
  _calculate_dice hardsigmoid logits_10 label_zero = Raise ValueError /\
  exists v, _calculate_dice hardsigmoid logits_10 labels_10 = Ok v.
Proof.
  split; [| split; [| split]].
  - apply (calculate_dice_outcome hardsigmoid logits_10 logits_10). simpl. lia.
  - apply (calculate_dice_outcome hardsigmoid logits_1ch_a label_one); reflexivity.
  - apply (calculate_dice_outcome hardsigmoid logits_10 label_zero); reflexivity.
  - apply (calculate_dice_outcome hardsigmoid logits_10 labels_10); reflexivity.
Defined.

Lemma calculate_dice_between_0_and_1_witness : in_unit (Fin (2 # 2)).
Proof.
  apply (calculate_dice_between_0_and_1 hardsigmoid logits_10 labels_10).
  - exact hardsigmoid_unit.
  - simpl. lia.
  - simpl. lia.
  - vm_compute. reflexivity.
Defined.

Lemma calculate_dice_background_only_prediction_witness :
  req (_calculate_dice hardsigmoid logits_00 labels_10) (Ok (Fin 0)).
Proof.
  apply (calculate_dice_background_only_prediction hardsigmoid logits_00 labels_10 onehot_10).
  - reflexivity.
  - reflexivity.
  - simpl. lia.
  - simpl. lia.
  - simpl. intros b c d h w _ Hc _ _ _.
    destruct c as [| c]; [lia | reflexivity].
Defined.

Lemma calculate_dice_empty_batch_witness :
  _calculate_dice hardsigmoid logits_empty labels_empty = Ok NaN.
Proof.
  apply (calculate_dice_empty_batch hardsigmoid logits_empty labels_empty); reflexivity.
Defined.

Lemma scheduler_monitors_validation_loss_witness :
  In (mkLog (monitor (cfg_lr_scheduler (configure_optimizers string example_model)))
        (Fin 0) true true true)
     (logged (validation_step hardsigmoid string identity_net zero_loss example_model
                batch_zero 0 empty_world).2) /\
  (forall r,
     In r (logged (training_step hardsigmoid string identity_net zero_loss example_model
                     batch_zero 0 empty_world).2) ->
     In r (logged empty_world) \/
     name r <> monitor (cfg_lr_scheduler (configure_optimizers string example_model))).
Proof.
  apply (scheduler_monitors_validation_loss hardsigmoid string identity_net zero_loss
           example_model batch_zero 0 empty_world logits_1ch_a label_zero (Fin 0));
    reflexivity.
Defined.

Lemma calculate_dice_label_out_of_range_witness :
  _calculate_dice hardsigmoid logits_1ch_a label_one = Raise RuntimeError.
Proof.
  apply (calculate_dice_label_out_of_range hardsigmoid logits_1ch_a label_one 0 0 0 0).
  - reflexivity.
  - simpl. lia.
  - simpl. lia.
  - simpl. lia.
  - simpl. lia.
  - right. vm_compute. discriminate.
Defined.

Lemma calculate_dice_truncates_labels_witness :
  _calculate_dice hardsigmoid logits_10 labels_fractional =
  _calculate_dice hardsigmoid logits_10 labels_10.
Proof.
  apply (calculate_dice_truncates_labels hardsigmoid logits_10 labels_fractional labels_10).
  - reflexivity.
  - intros b d h w. destruct w as [| w]; reflexivity.
Defined.

Lemma step_single_channel_foreground_label_witness :
  (training_step hardsigmoid string identity_net zero_loss example_model
     batch_one 0 empty_world).1 = Raise RuntimeError /\
  (validation_step hardsigmoid string identity_net zero_loss example_model
     batch_one 0 empty_world).1 = Raise RuntimeError /\
  logged (training_step hardsigmoid string identity_net zero_loss example_model
            batch_one 0 empty_world).2 =
    logged empty_world ++ [mkLog "train_loss" (Fin 0) true true true] /\
  logged (validation_step hardsigmoid string identity_net zero_loss example_model
            batch_one 0 empty_world).2 =
    logged empty_world ++ [mkLog "val_loss" (Fin 0) true true true].
Proof.
  apply (step_single_channel_foreground_label hardsigmoid string identity_net zero_loss
           example_model batch_one 0 empty_world logits_1ch_a label_one (Fin 0) 0 0 0 0).
  - reflexivity.
  - reflexivity.
  - reflexivity.
  - reflexivity.
  - reflexivity.
  - simpl. lia.
  - simpl. lia.
  - simpl. lia.
  - simpl. lia.
  - vm_compute. discriminate.
Defined.
